(** * ClinicHub backend: the video controller and the HTTP bootstrap

    A shallow embedding of [src/video/video.controller.ts] and of the
    bootstrap script ([main.ts]): the six handlers of [VideoController],
    the file gate in front of [uploadVideo], and the middleware that
    [bootstrap] installs for CORS, rate limiting and timeouts.

    The handlers only orchestrate two injected collaborators,
    [VideoService] and [S3Service].  They are written here as programs
    over a signature of calls, so that a statement can speak about which
    calls a handler issues, and be run against any implementation of the
    collaborators. *)

From Stdlib Require Import ZArith String Ascii List Bool Lia.
From stdpp Require Import base option list gmap strings.

Local Open Scope Z_scope.

(** ** JavaScript values used by the sources *)

Module Js.

(** [x || d] on a number that may be [undefined]: [undefined] and [0] are
    falsy.  ([NaN] is falsy too; it is not a value of [Z].) *)
Definition or_num (x : option Z) (d : Z) : Z :=
  match x with
  | Some c => if c =? 0 then d else c
  | None => d
  end.

(** [x || d] on a string that may be [undefined]: the empty string is falsy. *)
Definition or_str (x : option string) (d : string) : string :=
  match x with
  | Some EmptyString => d
  | Some s => s
  | None => d
  end.

(** A string that may be [null] or [undefined], under a truthiness test:
    the string when it is truthy, nothing when [!x] holds. *)
Definition truthy_str (x : option string) : option string :=
  match x with
  | Some EmptyString => None
  | Some s => Some s
  | None => None
  end.

(** [p] is an initial segment of [s]. *)
Fixpoint startsWith (p s : string) : bool :=
  match p, s with
  | EmptyString, _ => true
  | String a p', String b s' => Ascii.eqb a b && startsWith p' s'
  | String _ _, EmptyString => false
  end.

(** [String.prototype.includes]: [needle] occurs somewhere in [hay]. *)
Fixpoint includes (needle hay : string) : bool :=
  startsWith needle hay ||
  match hay with
  | EmptyString => false
  | String _ hay' => includes needle hay'
  end.

(** ASCII letters in the other case; any other character is itself. *)
Definition lower (c : ascii) : ascii :=
  let n := N_of_ascii c in
  if (65 <=? n)%N && (n <=? 90)%N then ascii_of_N (n + 32) else c.

Definition upper (c : ascii) : ascii :=
  let n := N_of_ascii c in
  if (97 <=? n)%N && (n <=? 122)%N then ascii_of_N (n - 32) else c.

(** [String.prototype.toUpperCase], on ASCII. *)
Fixpoint toUpperCase (s : string) : string :=
  match s with
  | EmptyString => EmptyString
  | String c s' => String (upper c) (toUpperCase s')
  end.

(** The fragment of regular expressions that the pattern ['video/*']
    lives in: a sequence of literal characters, each possibly starred. *)
Inductive atom := Lit (c : ascii) | Star (c : ascii).

(** Consume as many [c] as wanted, then go on with [rest]. *)
Fixpoint star_here (c : ascii) (rest : string -> bool) (s : string) : bool :=
  rest s ||
  match s with
  | String b s' => Ascii.eqb c b && star_here c rest s'
  | EmptyString => false
  end.

(** The regular expression matches an initial segment of [s]. *)
Fixpoint match_here (re : list atom) (s : string) : bool :=
  match re with
  | [] => true
  | Lit c :: re' =>
      match s with
      | String b s' => Ascii.eqb c b && match_here re' s'
      | EmptyString => false
      end
  | Star c :: re' => star_here c (match_here re') s
  end.

(** An unanchored search, as [String.prototype.match] and
    [RegExp.prototype.test] do. *)
Fixpoint search (re : list atom) (s : string) : bool :=
  match_here re s ||
  match s with
  | EmptyString => false
  | String _ s' => search re s'
  end.

(** A thrown value, as far as the handlers look at it: [error.statusCode]
    and [error.message], either of which may be [undefined]. *)
Record Error := mkError {
  err_statusCode : option Z;
  err_message : option string
}.

(** The classification code an error carries: a truthy [statusCode]. *)
Definition classification (e : Error) : option Z :=
  match err_statusCode e with
  | Some c => if c =? 0 then None else Some c
  | None => None
  end.

(** A settled promise. *)
Inductive Settled (T : Type) :=
| Rejected (e : Error)
| Resolved (v : T).
Arguments Rejected {T} e.
Arguments Resolved {T} v.

End Js.
Export Js(Settled, Rejected, Resolved).

(** ** [HttpStatus] of [@nestjs/common] *)

Module HttpStatus.
Definition OK : Z := 200.
Definition CREATED : Z := 201.
Definition NOT_FOUND : Z := 404.
Definition PAYLOAD_TOO_LARGE : Z := 413.
Definition UNPROCESSABLE_ENTITY : Z := 422.
Definition TOO_MANY_REQUESTS : Z := 429.
Definition INTERNAL_SERVER_ERROR : Z := 500.
End HttpStatus.

(** ** Programs over a signature of calls

    A handler is an [async] function: it runs until it awaits a
    collaborator, and resumes with whatever the collaborator settled to. *)

Record Sig := mkSig { Call : Type; Resp : Call -> Type }.

Inductive Prog (S : Sig) (A : Type) : Type :=
| Ret (a : A)
| Vis (c : Call S) (k : Resp S c -> Prog S A).
Arguments Ret {S A} a.
Arguments Vis {S A} c k.

Fixpoint bind {S A B} (p : Prog S A) (f : A -> Prog S B) : Prog S B :=
  match p with
  | Ret a => f a
  | Vis c k => Vis c (fun r => bind (k r) f)
  end.

Definition await {S} (c : Call S) : Prog S (Resp S c) := Vis c Ret.

(** The body of a [try] block: a program that may stop at a rejection. *)
Definition Try (S : Sig) (A : Type) : Type := Prog S (Settled A).

Definition bindT {S A B} (p : Try S A) (f : A -> Try S B) : Try S B :=
  bind p (fun r =>
    match r with
    | Rejected e => Ret (Rejected e)
    | Resolved a => f a
    end).

Definition returnT {S A} (a : A) : Try S A := Ret (Resolved a).

(** A call that cannot reject, inside a [try] block. *)
Definition perform {S} (c : Call S) : Try S (Resp S c) :=
  bind (await c) returnT.

(** [try { body } catch (error) { handler }] *)
Definition try_catch {S A} (body : Try S A) (handler : Js.Error -> Prog S A)
  : Prog S A :=
  bind body (fun r =>
    match r with
    | Rejected e => handler e
    | Resolved a => Ret a
    end).

Declare Scope prog_scope.
Delimit Scope prog_scope with prog.
Notation "'let*' x ':=' c 'in' k" := (bindT c (fun x => k))
  (at level 10, x name, c at level 100, k at level 200) : prog_scope.

(** An event of a run: a call together with what it settled to. *)
Definition Event (S : Sig) : Type := { c : Call S & Resp S c }.

(** The collaborators, as functions on a world [W]. *)
Definition Handler (S : Sig) (W : Type) : Type :=
  forall c : Call S, W -> Resp S c * W.

(** Run a program: result, final world and the events in order. *)
Fixpoint run {S W A} (h : Handler S W) (p : Prog S A) (w : W)
  : A * W * list (Event S) :=
  match p with
  | Ret a => (a, w, [])
  | Vis c k =>
      let '(r, w1) := h c w in
      let '(a, w2, t) := run h (k r) w1 in
      (a, w2, existT c r :: t)
  end.

Definition result {S W A} (h : Handler S W) (p : Prog S A) (w : W) : A :=
  (run h p w).1.1.
Definition final {S W A} (h : Handler S W) (p : Prog S A) (w : W) : W :=
  (run h p w).1.2.
Definition trace {S W A} (h : Handler S W) (p : Prog S A) (w : W)
  : list (Event S) :=
  (run h p w).2.
Definition calls {S W A} (h : Handler S W) (p : Prog S A) (w : W)
  : list (Call S) :=
  map (@projT1 _ _) (trace h p w).

(** ** The data of the video module *)

(** [Express.Multer.File], the fields the sources read. *)
Record File := mkFile {
  originalname : string;
  mimetype : string;
  size : Z
}.

(** [CreateVideoDto] and [UpdateVideoDto]: the descriptive metadata. *)
Record CreateVideoDto := mkCreateVideoDto {
  dto_title : string;
  dto_description : option string
}.

Record UpdateVideoDto := mkUpdateVideoDto {
  upd_title : option string;
  upd_description : option string
}.

(** Modelled from the spec: the entity [Video] ([./entities/video.entity]
    is not among the sources).  The controller reads [id] and [fileKey];
    the other attributes are those of the specification's VideoRecord. *)
Record Video := mkVideo {
  id : string;
  title : string;
  description : option string;
  fileKey : option string;
  originalName : string;
  fileSize : Z;
  mimeType : string
}.

(** [ApiResponse<T>]: the envelope every handler returns. *)
Record ApiResponse (T : Type) := mkApiResponse {
  statusCode : Z;
  message : string;
  data : option T
}.
Arguments mkApiResponse {T} _ _ _.
Arguments statusCode {T} _.
Arguments message {T} _.
Arguments data {T} _.

(** ** [VideoController] *)

Module VideoController.

(** What the handlers write on the console. *)
Inductive ConsoleLine :=
| StartingUpload (name : string) (bytes : Z)
| UploadCompleted (videoId : string)
| VideoUploadError (e : Js.Error).

(** The calls of the handlers: the methods of the injected [videoService]
    and [s3Service], and the console. *)
Inductive call :=
| console (l : ConsoleLine)
| videoService_upload (file : File) (dto : CreateVideoDto)
| videoService_findAll
| videoService_findOne (id : string)
| videoService_update (id : string) (dto : UpdateVideoDto)
| videoService_remove (id : string)
| s3Service_getSignedUrl (fileKey : string).

(** What each call settles to.  [findOne], [update] and [remove] resolve
    to a record or to [null]; the handlers test the value with [!]. *)
Definition resp (c : call) : Type :=
  match c with
  | console _ => unit
  | videoService_upload _ _ => Settled Video
  | videoService_findAll => Settled (list Video)
  | videoService_findOne _ => Settled (option Video)
  | videoService_update _ _ => Settled (option Video)
  | videoService_remove _ => Settled (option Video)
  | s3Service_getSignedUrl _ => Settled string
  end.

Definition sig : Sig := mkSig call resp.

(** The object every [catch] block returns. *)
Definition caught {T} (error : Js.Error) (fallback : string) : ApiResponse T :=
  {| statusCode := Js.or_num (Js.err_statusCode error)
                     HttpStatus.INTERNAL_SERVER_ERROR;
     message := Js.or_str (Js.err_message error) fallback;
     data := None |}.

Local Open Scope prog_scope.

(** [@Post('upload') uploadVideo(file, createVideoDto)], the method body. *)
Definition uploadVideo (file : File) (createVideoDto : CreateVideoDto)
  : Prog sig (ApiResponse Video) :=
  try_catch
    (let* _ := perform (S:=sig)
                 (console (StartingUpload (originalname file) (size file))) in
     let* video := await (S:=sig) (videoService_upload file createVideoDto) in
     let* _ := perform (S:=sig) (console (UploadCompleted (id video))) in
     returnT {| statusCode := HttpStatus.CREATED;
                message := "Video subido exitosamente";
                data := Some video |})
    (fun error =>
       bind (await (S:=sig) (console (VideoUploadError error))) (fun _ =>
       Ret (caught error "Error al subir el video"))).

(** [@Get() findAll()] *)
Definition findAll : Prog sig (ApiResponse (list Video)) :=
  try_catch
    (let* videos := await (S:=sig) videoService_findAll in
     returnT {| statusCode := HttpStatus.OK;
                message := "Videos obtenidos exitosamente";
                data := Some videos |})
    (fun error => Ret (caught error "Error al obtener los videos")).

(** [@Get(':id') findOne(id)] *)
Definition findOne (id : string) : Prog sig (ApiResponse Video) :=
  try_catch
    (let* video := await (S:=sig) (videoService_findOne id) in
     match video with
     | None =>
         returnT {| statusCode := HttpStatus.OK;
                    message := "Video no encontrado";
                    data := None |}
     | Some video =>
         returnT {| statusCode := HttpStatus.OK;
                    message := "Video obtenido exitosamente";
                    data := Some video |}
     end)
    (fun error => Ret (caught error "Error al obtener el video")).

(** [@Get(':id/signed-url') getSignedUrl(id)] *)
Definition getSignedUrl (id : string) : Prog sig (ApiResponse string) :=
  try_catch
    (let* video := await (S:=sig) (videoService_findOne id) in
     match video with
     | None =>
         returnT {| statusCode := HttpStatus.NOT_FOUND;
                    message := "Video no encontrado";
                    data := None |}
     | Some video =>
         match Js.truthy_str (fileKey video) with
         | None =>
             returnT {| statusCode := HttpStatus.NOT_FOUND;
                        message := "Video no encontrado";
                        data := None |}
         | Some key =>
             let* signedUrl := await (S:=sig) (s3Service_getSignedUrl key) in
             returnT {| statusCode := HttpStatus.OK;
                        message := "URL firmada obtenida exitosamente";
                        data := Some signedUrl |}
         end
     end)
    (fun error => Ret (caught error "Error al obtener la URL firmada")).

(** [@Patch(':id') update(id, updateVideoDto)] *)
Definition update (id : string) (updateVideoDto : UpdateVideoDto)
  : Prog sig (ApiResponse Video) :=
  try_catch
    (let* updatedVideo :=
       await (S:=sig) (videoService_update id updateVideoDto) in
     match updatedVideo with
     | None =>
         returnT {| statusCode := HttpStatus.OK;
                    message := "Video no encontrado";
                    data := None |}
     | Some updatedVideo =>
         returnT {| statusCode := HttpStatus.OK;
                    message := "Video actualizado exitosamente";
                    data := Some updatedVideo |}
     end)
    (fun error => Ret (caught error "Error al actualizar el video")).

(** [@Delete(':id') remove(id)]: the payload type is [null]. *)
Definition remove (id : string) : Prog sig (ApiResponse Empty_set) :=
  try_catch
    (let* deletedVideo := await (S:=sig) (videoService_remove id) in
     match deletedVideo with
     | None =>
         returnT {| statusCode := HttpStatus.OK;
                    message := "Video no encontrado";
                    data := None |}
     | Some _ =>
         returnT {| statusCode := HttpStatus.OK;
                    message := "Video eliminado exitosamente";
                    data := None |}
     end)
    (fun error => Ret (caught error "Error al eliminar el video")).

(** *** The file gate of the upload route

    [FileInterceptor('file', { limits })] and the [ParseFilePipe] on the
    [@UploadedFile()] parameter both run before the method body. *)

(** [limits.fileSize] of the interceptor and [maxSize] of the validator. *)
Definition fileSize_limit : Z := 1024 * 1024 * 2000.
Definition maxSize : Z := 1024 * 1024 * 2000.

(** [fileType: 'video/*'], read as a regular expression. *)
Definition fileType : list Js.atom :=
  [Js.Lit "v"; Js.Lit "i"; Js.Lit "d"; Js.Lit "e"; Js.Lit "o"; Js.Star "/"]%char.

(** What a failed validator reports ([buildErrorMessage]). *)
Inductive ValidatorError :=
| ExpectedSizeLessThan (maxSize : Z)
| ExpectedType (fileType : list Js.atom).

(** [FileValidator] of [@nestjs/common]. *)
Record FileValidator := mkFileValidator {
  isValid : File -> bool;
  buildErrorMessage : ValidatorError
}.

(** [MaxFileSizeValidator.isValid]: [file.size < maxSize]. *)
Definition MaxFileSizeValidator (maxSize : Z) : FileValidator :=
  {| isValid file := size file <? maxSize;
     buildErrorMessage := ExpectedSizeLessThan maxSize |}.

(** [FileTypeValidator.isValid]: [!!file.mimetype.match(fileType)]. *)
Definition FileTypeValidator (fileType : list Js.atom) : FileValidator :=
  {| isValid file := Js.search fileType (mimetype file);
     buildErrorMessage := ExpectedType fileType |}.

Definition validators : list FileValidator :=
  [MaxFileSizeValidator maxSize; FileTypeValidator fileType].

(** What the gate throws.  [FileValidation] is the object built by
    [exceptionFactory]: [statusCode], a message quoting the validator's
    error, and [data: null]. *)
Inductive Thrown :=
| PayloadTooLarge
| FileValidation (statusCode : Z) (error : ValidatorError).

Definition thrown_status (x : Thrown) : Z :=
  match x with
  | PayloadTooLarge => HttpStatus.PAYLOAD_TOO_LARGE
  | FileValidation c _ => c
  end.

Definition exceptionFactory (error : ValidatorError) : Thrown :=
  FileValidation HttpStatus.UNPROCESSABLE_ENTITY error.

(** The interceptor: multer stops a file that reaches the limit. *)
Definition FileInterceptor (file : File) : option Thrown :=
  if fileSize_limit <=? size file then Some PayloadTooLarge else None.

(** [ParseFilePipe.transform]: the first validator that fails throws. *)
Fixpoint ParseFilePipe (vs : list FileValidator) (file : File)
  : option Thrown :=
  match vs with
  | [] => None
  | v :: vs' =>
      if isValid v file then ParseFilePipe vs' file
      else Some (exceptionFactory (buildErrorMessage v))
  end.

(** The file reaches the method body. *)
Definition accepts (file : File) : bool :=
  match FileInterceptor file, ParseFilePipe validators file with
  | None, None => true
  | _, _ => false
  end.

(** The constraints as the specification words them: at most 2 GiB, and
    a content type matching the video pattern. *)
Definition two_GiB : Z := 2 ^ 31.

Definition spec_constraints (file : File) : Prop :=
  size file <= two_GiB /\ Js.search fileType (mimetype file) = true.

Inductive Outcome (T : Type) :=
| Returned (r : ApiResponse T)
| Threw (x : Thrown).
Arguments Returned {T} r.
Arguments Threw {T} x.

(** [POST /videos/upload] with its gate. *)
Definition upload_route (file : File) (createVideoDto : CreateVideoDto)
  : Prog sig (Outcome Video) :=
  match FileInterceptor file with
  | Some x => Ret (Threw x)
  | None =>
      match ParseFilePipe validators file with
      | Some x => Ret (Threw x)
      | None => bind (uploadVideo file createVideoDto)
                  (fun r => Ret (Returned r))
      end
  end.

(** *** The routes of the controller, with one payload type *)

Inductive Payload :=
| VideoData (v : Video)
| VideoList (l : list Video)
| UrlData (url : string).

Definition envelope {T} (f : T -> Payload) (r : ApiResponse T)
  : ApiResponse Payload :=
  {| statusCode := statusCode r;
     message := message r;
     data := f <$> data r |}.

Inductive endpoint :=
| POST_upload (file : File) (dto : CreateVideoDto)
| GET_videos
| GET_video (id : string)
| GET_signed_url (id : string)
| PATCH_video (id : string) (dto : UpdateVideoDto)
| DELETE_video (id : string).

Definition handle (ep : endpoint) : Prog sig (ApiResponse Payload) :=
  match ep with
  | POST_upload file dto =>
      bind (uploadVideo file dto) (fun r => Ret (envelope VideoData r))
  | GET_videos => bind findAll (fun r => Ret (envelope VideoList r))
  | GET_video id => bind (findOne id) (fun r => Ret (envelope VideoData r))
  | GET_signed_url id =>
      bind (getSignedUrl id) (fun r => Ret (envelope UrlData r))
  | PATCH_video id dto =>
      bind (update id dto) (fun r => Ret (envelope VideoData r))
  | DELETE_video id =>
      bind (remove id)
        (fun r => Ret (envelope (fun x : Empty_set => match x with end) r))
  end.

(** The rejection carried by an event, if it is one. *)
Definition rejection (ev : Event sig) : option Js.Error :=
  match ev with
  | existT (console _) _ => None
  | existT (videoService_upload _ _) (Rejected e) => Some e
  | existT videoService_findAll (Rejected e) => Some e
  | existT (videoService_findOne _) (Rejected e) => Some e
  | existT (videoService_update _ _) (Rejected e) => Some e
  | existT (videoService_remove _) (Rejected e) => Some e
  | existT (s3Service_getSignedUrl _) (Rejected e) => Some e
  | _ => None
  end.

(** The errors raised during a run. *)
Definition raised (t : list (Event sig)) : list Js.Error :=
  omap rejection t.

(** A call to the Storage Gateway. *)
Definition is_s3_call (c : call) : bool :=
  match c with
  | s3Service_getSignedUrl _ => true
  | _ => false
  end.

(** A call to either collaborator (storage or persistence). *)
Definition is_io_call (c : call) : bool :=
  match c with
  | console _ => false
  | _ => true
  end.

End VideoController.

(** ** [bootstrap]: the middleware installed in front of the controllers *)

Module Bootstrap.

Record Request := mkRequest {
  method : string;
  url : string;
  ip : string;
  req_headers : gmap string string
}.

(** The response under construction, and the socket timeouts that
    [req.setTimeout] and [res.setTimeout] arm (in milliseconds). *)
Record Response := mkResponse {
  status : Z;
  res_headers : gmap string string;
  ended : bool;
  req_timeout : option Z;
  res_timeout : option Z
}.

Definition fresh_response : Response :=
  {| status := 200; res_headers := ∅; ended := false;
     req_timeout := None; res_timeout := None |}.

(** [res.header(name, value)] and [res.setHeader(name, value)] *)
Definition setHeader (name value : string) (res : Response) : Response :=
  {| status := status res;
     res_headers := <[name := value]> (res_headers res);
     ended := ended res;
     req_timeout := req_timeout res;
     res_timeout := res_timeout res |}.

(** [res.status(code).end()] *)
Definition status_end (code : Z) (res : Response) : Response :=
  {| status := code;
     res_headers := res_headers res;
     ended := true;
     req_timeout := req_timeout res;
     res_timeout := res_timeout res |}.

(** [req.setTimeout(ms); res.setTimeout(ms)] *)
Definition setTimeouts (ms : Z) (res : Response) : Response :=
  {| status := status res;
     res_headers := res_headers res;
     ended := ended res;
     req_timeout := Some ms;
     res_timeout := Some ms |}.

(** *** Rate limiting ([express-rate-limit]) *)

(** Per client key: the hits of the current window and when it ends. *)
Record Window := mkWindow { hits : Z; resetTime : Z }.

Record RateLimit := mkRateLimit {
  windowMs : Z;
  max : Z;
  skip : Request -> bool
}.

(** The store's [increment]: a new window when there is none or it is over. *)
Definition increment (cfg : RateLimit) (now : Z) (key : string)
  (store : gmap string Window) : Window :=
  match store !! key with
  | Some w =>
      if resetTime w <=? now
      then {| hits := 1; resetTime := now + windowMs cfg |}
      else {| hits := hits w + 1; resetTime := resetTime w |}
  | None => {| hits := 1; resetTime := now + windowMs cfg |}
  end.

(** The server state: the stores of the two limiters. *)
Record Limits := mkLimits {
  general_store : gmap string Window;
  upload_store : gmap string Window
}.

(** A middleware either ends the response or calls [next()]. *)
Inductive Flow := Next | End.

Definition Middleware : Type :=
  Z -> Request -> Limits -> Response -> Limits * Response * Flow.

(** The limiter as a middleware over one of the two stores. *)
Definition rateLimit (cfg : RateLimit)
  (get : Limits -> gmap string Window)
  (set : gmap string Window -> Limits -> Limits) : Middleware :=
  fun now req st res =>
    if skip cfg req then (st, res, Next)
    else
      let w := increment cfg now (ip req) (get st) in
      let st' := set (<[ip req := w]> (get st)) st in
      if max cfg <? hits w
      then (st', status_end HttpStatus.TOO_MANY_REQUESTS res, End)
      else (st', res, Next).

Definition set_general (s : gmap string Window) (st : Limits) : Limits :=
  {| general_store := s; upload_store := upload_store st |}.
Definition set_upload (s : gmap string Window) (st : Limits) : Limits :=
  {| general_store := general_store st; upload_store := s |}.

(** *** Mounting: [app.use(path, middleware)] *)

(** The path of a request URL: what precedes the query string. *)
Fixpoint pathname (url : string) : string :=
  match url with
  | EmptyString => EmptyString
  | String c rest =>
      if Ascii.eqb c "?" then EmptyString else String c (pathname rest)
  end.

(** What is left of [s] behind [p], letters compared without regard to
    case. *)
Fixpoint strip_prefix (p s : string) : option string :=
  match p, s with
  | EmptyString, _ => Some s
  | String a p', String b s' =>
      if Ascii.eqb (Js.lower a) (Js.lower b) then strip_prefix p' s' else None
  | String _ _, EmptyString => None
  end.

(** The mount path matches whole segments at the start of the path,
    whatever the case of the letters, as Express mounts do by default
    (while [includes] below compares the characters as they are). *)
Definition mount_matches (mount : string) (req : Request) : bool :=
  match strip_prefix mount (pathname (url req)) with
  | Some EmptyString => true
  | Some (String c _) => Ascii.eqb c "/"
  | None => false
  end.

Definition mounted (mount : string) (m : Middleware) : Middleware :=
  fun now req st res =>
    if mount_matches mount req then m now req st res else (st, res, Next).

(** *** The middleware of [bootstrap] *)

Definition upload_path : string := "/api/v1/videos/upload".
Definition production_frontend : string :=
  "https://videoteca-web-enfermeria.vercel.app".

(** "Add specific CORS handling for video uploads" *)
Definition upload_cors : Middleware :=
  fun _ req st res =>
    if String.eqb (method req) "OPTIONS" then
      (st,
       status_end 200
         (setHeader "Access-Control-Max-Age" "86400"
         (setHeader "Access-Control-Allow-Headers"
            "Content-Type, Authorization, Accept, X-Requested-With, Origin"
         (setHeader "Access-Control-Allow-Methods" "POST, OPTIONS"
         (setHeader "Access-Control-Allow-Origin" production_frontend res)))),
       End)
    else (st, res, Next).

(** "Configure rate limiting" *)
Definition general_limit : RateLimit :=
  {| windowMs := 15 * 60 * 1000;
     max := 100;
     skip req := Js.includes "/videos/upload" (url req) || false |}.

(** "Separate rate limit for video uploads" *)
Definition upload_limit : RateLimit :=
  {| windowMs := 60 * 60 * 1000;
     max := 10;
     skip _ := false |}.

(** "Extend timeout for file uploads" *)
Definition upload_timeout_ms : Z := 600000.

Definition upload_timeout : Middleware :=
  fun _ req st res =>
    if Js.includes "/videos/upload" (url req) then
      (st,
       setHeader "Access-Control-Max-Age" "86400"
         (setTimeouts upload_timeout_ms res),
       Next)
    else (st, res, Next).

(** A middleware that sets one header and calls [next()]. *)
Definition header_only (name value : string) : Middleware :=
  fun _ _ st res => (st, setHeader name value res, Next).

(** *** [app.enableCors(options)]

    The handler of the [cors] package, which [enableCors] installs before
    any [app.use] of [bootstrap]. *)

Record CorsOptions := mkCorsOptions {
  origin : list string;
  credentials : bool;
  methods : list string;
  allowedHeaders : list string;
  exposedHeaders : list string;
  optionsSuccessStatus : Z;
  preflightContinue : bool
}.

Definition cors_options : CorsOptions :=
  {| origin :=
       [production_frontend; "http://localhost:3000"; "http://localhost:3001";
        "http://localhost:5173"; "http://localhost:5174";
        "http://localhost:8080"];
     credentials := true;
     methods := ["GET"; "POST"; "PUT"; "DELETE"; "PATCH"; "OPTIONS"];
     allowedHeaders :=
       ["Content-Type"; "Authorization"; "Accept"; "X-Requested-With";
        "Origin"; "Cache-Control"; "Content-Length"];
     exposedHeaders := ["set-cookie"];
     optionsSuccessStatus := 200;
     preflightContinue := false |}.

(** [configureOrigin] for a list of origins: the origin of the request is
    echoed when it is one of the list, and nothing is said otherwise;
    [Vary: Origin] in both cases (the handler is the first to run: the
    response has no [Vary] header yet). *)
Definition configureOrigin (o : CorsOptions) (req : Request) (res : Response)
  : Response :=
  setHeader "Vary" "Origin"
    match req_headers req !! "origin" with
    | Some requestOrigin =>
        if existsb (String.eqb requestOrigin) (origin o)
        then setHeader "Access-Control-Allow-Origin" requestOrigin res
        else res
    | None => res
    end.

Definition configureCredentials (o : CorsOptions) (res : Response) : Response :=
  if credentials o
  then setHeader "Access-Control-Allow-Credentials" "true" res
  else res.

Definition configureExposedHeaders (o : CorsOptions) (res : Response)
  : Response :=
  match exposedHeaders o with
  | [] => res
  | hs => setHeader "Access-Control-Expose-Headers" (String.concat "," hs) res
  end.

(** The handler: a preflight gets all the headers and, unless
    [preflightContinue] is set, is ended there with
    [optionsSuccessStatus]; any other request gets three of them and goes
    on. *)
Definition cors (o : CorsOptions) (req : Request) (res : Response)
  : Response * Flow :=
  if String.eqb (Js.toUpperCase (method req)) "OPTIONS" then
    let res' :=
      configureExposedHeaders o
        (setHeader "Access-Control-Allow-Headers"
           (String.concat "," (allowedHeaders o))
           (setHeader "Access-Control-Allow-Methods"
              (String.concat "," (methods o))
              (configureCredentials o (configureOrigin o req res)))) in
    if preflightContinue o then (res', Next)
    else (status_end (optionsSuccessStatus o)
            (setHeader "Content-Length" "0" res'), End)
  else
    (configureExposedHeaders o
       (configureCredentials o (configureOrigin o req res)), Next).


(** The requests that the chain treats as uploads. *)
Definition is_upload (req : Request) : bool :=
  Js.includes "/videos/upload" (url req).



End Bootstrap.

(** ** The collaborators of the controller

    [video.service.ts] and [s3.service.ts] are not among the sources.  The
    workflows below follow sections 4.1 to 4.5 of the specification, as
    programs over the calls of the Object Storage Gateway and of the
    Video Record Store. *)

Module VideoService.

(** Modelled from the spec: what the Record Store is asked to create, the
    attributes of a VideoRecord but its identifier (section 3). *)
Record NewVideo := mkNewVideo {
  new_title : string;
  new_description : option string;
  new_fileKey : string;
  new_originalName : string;
  new_fileSize : Z;
  new_mimeType : string
}.

Inductive LogLine :=
| CompensatingDeleteFailed (key : string) (e : Js.Error)
| ObjectDeleteFailed (key : string) (e : Js.Error).

(** Modelled from the spec: the calls of the workflows, which are those of
    the contracts of sections 4.1 and 4.2 (the S3 client and the
    repository are not among the sources): an identifier source, the
    gateway ([put], [signedUrl], [delete]), the store and the operator
    log. *)
Inductive call :=
| newIdentifier
| storage_put (key : string) (bytes : Z) (contentType : string)
| storage_signedUrl (key : string) (ttl : Z)
| storage_delete (key : string)
| store_create (v : NewVideo)
| store_list
| store_get (id : string)
| store_update (id : string) (dto : UpdateVideoDto)
| store_delete (id : string)
| log (l : LogLine).

Definition resp (c : call) : Type :=
  match c with
  | newIdentifier => string
  | storage_put _ _ _ => Settled unit
  | storage_signedUrl _ _ => Settled string
  | storage_delete _ => Settled unit
  | store_create _ => Settled Video
  | store_list => Settled (list Video)
  | store_get _ => Settled (option Video)
  | store_update _ _ => Settled (option Video)
  | store_delete _ => Settled unit
  | log _ => unit
  end.

Definition sig : Sig := mkSig call resp.

(** The suffix of [s] that starts at its last dot. *)
Fixpoint from_last_dot (s : string) : option string :=
  match s with
  | EmptyString => None
  | String c rest =>
      match from_last_dot rest with
      | Some e => Some e
      | None => if Ascii.eqb c "." then Some s else None
      end
  end.

(** Modelled from the spec: "the original filename extension" of section
    4.3, from the last dot on, a leading dot not counting. *)
Definition extension (name : string) : string :=
  match name with
  | EmptyString => EmptyString
  | String _ rest => default EmptyString (from_last_dot rest)
  end.

(** A string that is empty or starts with a dot, as extensions are. *)
Definition dotted (e : string) : Prop :=
  e = EmptyString \/ exists rest, e = String "." rest.

(** Modelled from the spec: the storage key of section 4.3 step 2, "a
    fresh random/opaque identifier and the original filename extension". *)
Definition storage_key (identifier name : string) : string :=
  identifier +:+ extension name.

Definition default_ttl : Z := 3600.

Local Open Scope prog_scope.

(** Modelled from the spec: the Upload Workflow of section 4.3, steps 2
    to 5 ([VideoService.upload] is not among the sources; step 1 is the
    file gate of the controller).  [put] first; on its failure abort, no
    record is created.  Then [create]; on its failure one compensating
    [delete] of the object, whose own failure is logged and dropped, and
    the error of [create] is surfaced. *)
Definition upload (file : File) (dto : CreateVideoDto)
  : Prog sig (Settled Video) :=
  bind (await (S:=sig) newIdentifier) (fun identifier =>
  let key := storage_key identifier (originalname file) in
  bind (await (S:=sig) (storage_put key (size file) (mimetype file)))
    (fun stored =>
  match stored with
  | Rejected e => Ret (Rejected e)
  | Resolved _ =>
      bind (await (S:=sig) (store_create
              {| new_title := dto_title dto;
                 new_description := dto_description dto;
                 new_fileKey := key;
                 new_originalName := originalname file;
                 new_fileSize := size file;
                 new_mimeType := mimetype file |}))
        (fun created =>
      match created with
      | Resolved video => Ret (Resolved video)
      | Rejected e =>
          bind (await (S:=sig) (storage_delete key)) (fun cleaned =>
          match cleaned with
          | Resolved _ => Ret (Rejected e)
          | Rejected e' =>
              bind (await (S:=sig) (log (CompensatingDeleteFailed key e')))
                (fun _ => Ret (Rejected e))
          end)
      end)
  end)).

(** Modelled from the spec: section 4.4, [list]. *)
Definition findAll : Prog sig (Settled (list Video)) :=
  await (S:=sig) store_list.

(** Modelled from the spec: section 4.4, [get]. *)
Definition findOne (id : string) : Prog sig (Settled (option Video)) :=
  await (S:=sig) (store_get id).

(** Modelled from the spec: section 4.4, [update]; a miss is reported as
    [null] (section 7). *)
Definition update (id : string) (dto : UpdateVideoDto)
  : Prog sig (Settled (option Video)) :=
  let* found := await (S:=sig) (store_get id) in
  match found with
  | None => returnT None
  | Some _ => await (S:=sig) (store_update id dto)
  end.

(** Modelled from the spec: section 4.4, [delete]; it removes the record
    and, best-effort, the backing object: gateway errors are logged and
    ignored.  A miss is reported as [null]. *)
Definition remove (id : string) : Prog sig (Settled (option Video)) :=
  let* found := await (S:=sig) (store_get id) in
  match found with
  | None => returnT None
  | Some video =>
      let* _ := await (S:=sig) (store_delete id) in
      match fileKey video with
      | None => returnT (Some video)
      | Some key =>
          bind (await (S:=sig) (storage_delete key)) (fun gone =>
          match gone with
          | Resolved _ => returnT (Some video)
          | Rejected e =>
              bind (await (S:=sig) (log (ObjectDeleteFailed key e)))
                (fun _ => returnT (Some video))
          end)
      end
  end.

(** Modelled from the spec: section 4.5, [S3Service.getSignedUrl]. *)
Definition getSignedUrl (key : string) : Prog sig (Settled string) :=
  await (S:=sig) (storage_signedUrl key default_ttl).

(** The controller's calls, implemented by the workflows.  The console
    of the controller is not part of the gateway or of the store. *)
Definition implement (c : VideoController.call)
  : Prog sig (VideoController.resp c) :=
  match c with
  | VideoController.console _ => Ret tt
  | VideoController.videoService_upload file dto => upload file dto
  | VideoController.videoService_findAll => findAll
  | VideoController.videoService_findOne id => findOne id
  | VideoController.videoService_update id dto => update id dto
  | VideoController.videoService_remove id => remove id
  | VideoController.s3Service_getSignedUrl key => getSignedUrl key
  end.

(** The collaborators of the controller over a gateway and a store. *)
Definition collaborators {W} (h : Handler sig W)
  : Handler VideoController.sig W :=
  fun c w => (run h (implement c) w).1.

(** The calls that delete an object of the gateway. *)
Definition is_storage_delete (c : call) : bool :=
  match c with
  | storage_delete _ => true
  | _ => false
  end.

(** The key of a [put] that succeeded. *)
Definition put_resolved (ev : Event sig) : option string :=
  match ev with
  | existT (storage_put key _ _) (Resolved _) => Some key
  | _ => None
  end.

(** The error of a [create] that failed. *)
Definition create_rejected (ev : Event sig) : option Js.Error :=
  match ev with
  | existT (store_create _) (Rejected e) => Some e
  | _ => None
  end.

(** The error of a [delete] of an object that failed. *)
Definition delete_rejected (ev : Event sig) : option Js.Error :=
  match ev with
  | existT (storage_delete _) (Rejected e) => Some e
  | _ => None
  end.

End VideoService.

(** ** A gateway and a store to run the workflows against

    Modelled from the spec: the Object Storage Gateway of section 4.1 and
    the Video Record Store of section 4.2 (the S3 client and the ORM
    repository are external).  Failures of the outside world are part of
    the state, so that every run is a function of its initial state. *)

Module World.

(** The operations that the outside world makes fail, and with what. *)
Record Faults := mkFaults {
  put_fault : option Js.Error;
  signedUrl_fault : option Js.Error;
  delete_fault : option Js.Error;
  store_fault : option Js.Error
}.

Definition no_faults : Faults := mkFaults None None None None.

Record t := mkWorld {
  objects : gmap string Z;          (* key -> byte length *)
  records : gmap string Video;      (* id -> record *)
  by_key : gmap string string;      (* storage key -> id *)
  next : positive;                  (* identifier source *)
  issued : list string;             (* every key ever put, newest first *)
  oplog : list VideoService.LogLine;
  faults : Faults
}.

Definition empty (f : Faults) : t :=
  {| objects := ∅; records := ∅; by_key := ∅; next := 1%positive;
     issued := []; oplog := []; faults := f |}.

(** An opaque identifier: the binary digits of the counter. *)
Fixpoint identifier (p : positive) : string :=
  match p with
  | xH => "1"
  | xO q => String "0" (identifier q)
  | xI q => String "1" (identifier q)
  end.

Definition NotFound : Js.Error := Js.mkError (Some 404) (Some "NotFound").
Definition Conflict : Js.Error := Js.mkError (Some 409) (Some "Conflict").

Definition with_objects (o : gmap string Z) (k : list string) (w : t) : t :=
  {| objects := o; records := records w; by_key := by_key w;
     next := next w; issued := k; oplog := oplog w; faults := faults w |}.

Definition with_records (r : gmap string Video) (b : gmap string string)
  (n : positive) (w : t) : t :=
  {| objects := objects w; records := r; by_key := b;
     next := n; issued := issued w; oplog := oplog w; faults := faults w |}.

Definition with_log (l : VideoService.LogLine) (w : t) : t :=
  {| objects := objects w; records := records w; by_key := by_key w;
     next := next w; issued := issued w; oplog := l :: oplog w;
     faults := faults w |}.

(** [update] may change title and description, nothing else. *)
Definition apply_update (dto : UpdateVideoDto) (v : Video) : Video :=
  {| id := id v;
     title := default (title v) (upd_title dto);
     description := match upd_description dto with
                    | Some d => Some d
                    | None => description v
                    end;
     fileKey := fileKey v;
     originalName := originalName v;
     fileSize := fileSize v;
     mimeType := mimeType v |}.

Definition create (n : VideoService.NewVideo) (w : t) : Settled Video * t :=
  match store_fault (faults w) with
  | Some e => (Rejected e, w)
  | None =>
      match by_key w !! VideoService.new_fileKey n with
      | Some _ => (Rejected Conflict, w)
      | None =>
          let v := {| id := identifier (next w);
                      title := VideoService.new_title n;
                      description := VideoService.new_description n;
                      fileKey := Some (VideoService.new_fileKey n);
                      originalName := VideoService.new_originalName n;
                      fileSize := VideoService.new_fileSize n;
                      mimeType := VideoService.new_mimeType n |} in
          (Resolved v,
           with_records (<[id v := v]> (records w))
             (<[VideoService.new_fileKey n := id v]> (by_key w))
             (Pos.succ (next w)) w)
      end
  end.

Definition remove_record (i : string) (w : t) : t :=
  match records w !! i with
  | Some v =>
      with_records (delete i (records w))
        (match fileKey v with
         | Some k => delete k (by_key w)
         | None => by_key w
         end) (next w) w
  | None => w
  end.

(** Modelled from the spec: the contracts of sections 4.1 and 4.2 as a
    handler of the workflows' calls.  [put] overwrites; [signedUrl] fails
    with [NotFound] on a missing key; [delete] of a missing key is not an
    error; [create] fails on a storage key already taken; [update] fails
    with [NotFound] on a missing identifier. *)
Definition gateway : Handler VideoService.sig t :=
  fun c =>
    match c as c0 return t -> VideoService.resp c0 * t with
    | VideoService.newIdentifier => fun w =>
        (identifier (next w),
         with_records (records w) (by_key w) (Pos.succ (next w)) w)
    | VideoService.storage_put key bytes _ => fun w =>
        match put_fault (faults w) with
        | Some e => (Rejected e, with_objects (objects w) (key :: issued w) w)
        | None =>
            (Resolved tt,
             with_objects (<[key := bytes]> (objects w)) (key :: issued w) w)
        end
    | VideoService.storage_signedUrl key _ => fun w =>
        match signedUrl_fault (faults w) with
        | Some e => (Rejected e, w)
        | None =>
            match objects w !! key with
            | Some _ => (Resolved ("https://storage.example/" +:+ key), w)
            | None => (Rejected NotFound, w)
            end
        end
    | VideoService.storage_delete key => fun w =>
        match delete_fault (faults w) with
        | Some e => (Rejected e, w)
        | None =>
            (Resolved tt, with_objects (delete key (objects w)) (issued w) w)
        end
    | VideoService.store_create n => create n
    | VideoService.store_list => fun w =>
        match store_fault (faults w) with
        | Some e => (Rejected e, w)
        | None => (Resolved (map snd (map_to_list (records w))), w)
        end
    | VideoService.store_get i => fun w =>
        match store_fault (faults w) with
        | Some e => (Rejected e, w)
        | None => (Resolved (records w !! i), w)
        end
    | VideoService.store_update i dto => fun w =>
        match store_fault (faults w) with
        | Some e => (Rejected e, w)
        | None =>
            match records w !! i with
            | Some v =>
                let v' := apply_update dto v in
                (Resolved (Some v'),
                 with_records (<[i := v']> (records w)) (by_key w) (next w) w)
            | None => (Rejected NotFound, w)
            end
        end
    | VideoService.store_delete i => fun w =>
        match store_fault (faults w) with
        | Some e => (Rejected e, w)
        | None => (Resolved tt, remove_record i w)
        end
    | VideoService.log l => fun w => (tt, with_log l w)
    end.

(** The controller's collaborators over this world. *)
Definition services : Handler VideoController.sig t :=
  VideoService.collaborators gateway.

(** Every key put so far was derived from an identifier already used. *)
Definition keys_accounted (w : t) : Prop :=
  forall k, In k (issued w) ->
    exists p name, (p < next w)%positive /\
                   k = VideoService.storage_key (identifier p) name.

(** One step of the account: the identifier source does not go back, and
    at most one key is put, derived from the identifier that was next. *)
Definition key_step (w w' : t) : Prop :=
  (next w <= next w')%positive /\
  (issued w' = issued w \/
   exists name, (next w < next w')%positive /\
     issued w' =
       VideoService.storage_key (identifier (next w)) name :: issued w).

Definition keys_fresh (w : t) : Prop :=
  keys_accounted w /\ List.NoDup (issued w).

Definition with_faults (f : Faults) (w : t) : t :=
  {| objects := objects w; records := records w; by_key := by_key w;
     next := next w; issued := issued w; oplog := oplog w; faults := f |}.

(** The states reached from an empty world by requests to the routes,
    while the outside world breaks and recovers at will. *)
Inductive reachable : t -> Prop :=
| reach_empty f : reachable (empty f)
| reach_faults f w : reachable w -> reachable (with_faults f w)
| reach_upload w file dto :
    reachable w ->
    reachable (final services (VideoController.upload_route file dto) w)
| reach_request w ep :
    reachable w ->
    reachable (final services (VideoController.handle ep) w).

End World.

(** ** Sample requests and states *)

Module Sample.

(** The scenario of the specification: a 10 MB video and its metadata. *)
Definition procedure1 : File := mkFile "procedure1.mp4" "video/mp4" 10485760.
Definition iv_insertion : CreateVideoDto :=
  mkCreateVideoDto "IV Insertion" (Some "").

(** A video of 2 100 000 000 bytes. *)
Definition oversized : File := mkFile "procedure1.mp4" "video/mp4" 2100000000.

Definition clean : World.t := World.empty World.no_faults.

Definition after_one_upload : World.t :=
  final World.services
    (VideoController.upload_route procedure1 iv_insertion) clean.

(** The record that a second upload of the same file creates. *)
Definition second_video : Video :=
  {| id := "001"; title := "IV Insertion"; description := Some "";
     fileKey := Some "11.mp4"; originalName := "procedure1.mp4";
     fileSize := 10485760; mimeType := "video/mp4" |}.

(** A world whose record store is down and whose gateway cannot delete. *)
Definition store_down : Js.Error :=
  Js.mkError (Some 503) (Some "store unavailable").
Definition delete_refused : Js.Error := Js.mkError None None.

Definition broken : World.t :=
  World.empty (World.mkFaults None None (Some delete_refused) (Some store_down)).

Definition upload_post : Bootstrap.Request :=
  Bootstrap.mkRequest "POST" "/api/v1/videos/upload" "203.0.113.7" ∅.
Definition list_get : Bootstrap.Request :=
  Bootstrap.mkRequest "GET" "/api/v1/videos" "203.0.113.7" ∅.

Definition no_limits : Bootstrap.Limits := Bootstrap.mkLimits ∅ ∅.

End Sample.

(** ** The routes and their calls *)

Module Routes.
Import VideoController.

Definition is_console (c : call) : bool :=
  match c with
  | console _ => true
  | _ => false
  end.



(** The message after [error.message ||] in the [catch] block of a route. *)
Definition fallback (ep : endpoint) : string :=
  match ep with
  | POST_upload _ _ => "Error al subir el video"
  | GET_videos => "Error al obtener los videos"
  | GET_video _ => "Error al obtener el video"
  | GET_signed_url _ => "Error al obtener la URL firmada"
  | PATCH_video _ _ => "Error al actualizar el video"
  | DELETE_video _ => "Error al eliminar el video"
  end.

Definition is_upload_route (ep : endpoint) : bool :=
  match ep with
  | POST_upload _ _ => true
  | _ => false
  end.

End Routes.

(** ** The whole stack of [bootstrap]

    The handlers of [Bootstrap] in their order, with those of the
    libraries as parameters: the [cors] handler that [app.enableCors]
    installs, [helmet()] and [compression()].  The last two always call
    [next()]; none of the three sees the limiters. *)

Module Stack.
Import Bootstrap.

(** A handler that has no access to the stores of the limiters. *)
Definition Plain : Type := Request -> Response -> Response * Flow.

Definition plain (m : Plain) : Middleware :=
  fun _ req st res => (st, (m req res).1, (m req res).2).

(** A handler that changes the response and calls [next()]. *)
Definition passing (f : Request -> Response -> Response) : Middleware :=
  fun _ req st res => (st, f req res, Next).

Record Libraries := mkLibraries {
  cors : Plain;
  helmet : Request -> Response -> Response;
  compression : Request -> Response -> Response
}.

(** "Request logging middleware": it logs and calls [next()]. *)
Definition request_logger : Middleware := passing (fun _ res => res).

(** The handlers in the order in which [bootstrap] installs them. *)
Definition middlewares (L : Libraries) : list Middleware :=
  [ plain (cors L);
    mounted upload_path upload_cors;
    passing (helmet L);
    passing (compression L);
    request_logger;
    rateLimit general_limit general_store set_general;
    mounted upload_path (rateLimit upload_limit upload_store set_upload);
    upload_timeout;
    header_only "X-XSS-Protection" "1; mode=block";
    header_only "X-Frame-Options" "DENY";
    header_only "X-Content-Type-Options" "nosniff";
    header_only "Strict-Transport-Security"
      "max-age=31536000; includeSubDomains";
    header_only "Accept" "multipart/form-data" ].

(** What [helmet] and [compression] make of the response that the [cors]
    handler let through. *)
Definition behind (L : Libraries) (req : Request) (r0 : Response) : Response :=
  compression L req (helmet L req r0).

(** What the five last handlers do to a response, together. *)
Definition security_headers (res : Response) : Response :=
  setHeader "Accept" "multipart/form-data"
    (setHeader "Strict-Transport-Security" "max-age=31536000; includeSubDomains"
       (setHeader "X-Content-Type-Options" "nosniff"
          (setHeader "X-Frame-Options" "DENY"
             (setHeader "X-XSS-Protection" "1; mode=block" res)))).

(** Run the handlers until one ends the response; [Next] at the end means
    that the request goes on to the router. *)
Fixpoint through (ms : list Middleware)
  (now : Z) (req : Request) (st : Limits) (res : Response)
  : Limits * Response * Flow :=
  match ms with
  | [] => (st, res, Next)
  | m :: ms' =>
      match m now req st res with
      | (st', res', Next) => through ms' now req st' res'
      | (st', res', End) => (st', res', End)
      end
  end.

Definition stack (L : Libraries) (now : Z) (req : Request) (st : Limits)
  : Limits * Response * Flow :=
  through (middlewares L) now req st fresh_response.

(** The same request arriving at each of the instants [ts], in turn: the
    final stores and, for each arrival, whether it went on to the router. *)
Fixpoint burst (L : Libraries) (req : Request) (ts : list Z) (st : Limits)
  : Limits * list Flow :=
  match ts with
  | [] => (st, [])
  | t :: ts' =>
      let '(st', _, f) := stack L t req st in
      let '(st'', fs) := burst L req ts' st' in
      (st'', f :: fs)
  end.

(** The stack as [bootstrap] builds it: the [cors] handler with the
    options of [enableCors], and whatever [helmet] and [compression] do
    to a response. *)
Definition installed (helmet compression : Request -> Response -> Response)
  : Libraries :=
  mkLibraries (Bootstrap.cors cors_options) helmet compression.






(** Libraries that do nothing, and a [helmet] that sets its own values for
    two headers that [bootstrap] sets again later. *)
Definition quiet : Libraries :=
  mkLibraries (fun _ res => (res, Next)) (fun _ res => res) (fun _ res => res).

Definition with_helmet : Libraries :=
  mkLibraries (fun _ res => (res, Next))
    (fun _ res =>
       setHeader "X-Frame-Options" "SAMEORIGIN"
         (setHeader "X-XSS-Protection" "0" res))
    (fun _ res => res).

End Stack.

(** ** More sample requests and records *)

Module Cases.

(** The record of the first upload of [Sample], and what it becomes when
    its title is changed. *)
Definition first_video : Video :=
  {| id := "01"; title := "IV Insertion"; description := Some "";
     fileKey := Some "1.mp4"; originalName := "procedure1.mp4";
     fileSize := 10485760; mimeType := "video/mp4" |}.

Definition retitle : UpdateVideoDto := mkUpdateVideoDto (Some "PICC line") None.

Definition retitled_video : Video :=
  {| id := "01"; title := "PICC line"; description := Some "";
     fileKey := Some "1.mp4"; originalName := "procedure1.mp4";
     fileSize := 10485760; mimeType := "video/mp4" |}.


(** An upload whose path is written in capitals. *)
Definition capitals : Bootstrap.Request :=
  Bootstrap.mkRequest "POST" "/API/V1/VIDEOS/UPLOAD" "203.0.113.7" ∅.

Definition same (_ : Bootstrap.Request) (res : Bootstrap.Response)
  : Bootstrap.Response := res.

(** Stores in which the client has used up the quota of the upload
    limiter, in a window that ends at instant 3 600 000. *)
Definition spent : Bootstrap.Limits :=
  Bootstrap.mkLimits ∅ {[ "203.0.113.7" := Bootstrap.mkWindow 10 3600000 ]}.

End Cases.

(** * Properties *)

(** ** Strings and patterns *)

#[local] Arguments String.append !_ _ / : simpl nomatch.

Section JsFacts.

Lemma startsWith_app p r : Js.startsWith p (p +:+ r) = true.
Proof.
  induction p as [|a p IH]; simpl; [done|].
  by rewrite Ascii.eqb_refl, IH.
Qed.

Lemma includes_startsWith n s :
  Js.startsWith n s = true -> Js.includes n s = true.
Proof. destruct s; simpl; intros ->; done. Qed.

Lemma includes_app a n b : Js.includes n (a +:+ n +:+ b) = true.
Proof.
  induction a as [|c a IH]; simpl.
  - apply includes_startsWith, startsWith_app.
  - rewrite IH. apply orb_true_r.
Qed.

Lemma match_here_lit c re s :
  Js.match_here (Js.Lit c :: re) s = true <->
  exists s', s = String c s' /\ Js.match_here re s' = true.
Proof.
  cbn. destruct s as [|b s]; split.
  - discriminate.
  - intros (s' & ? & _); discriminate.
  - intros [Hc Hm]%andb_true_iff. apply Ascii.eqb_eq in Hc as ->. eauto.
  - intros (s' & [= -> ->] & Hm). by rewrite Ascii.eqb_refl, Hm.
Qed.

Lemma match_here_last_star c s : Js.match_here [Js.Star c] s = true.
Proof. destruct s; reflexivity. Qed.

Lemma search_iff re s :
  Js.search re s = true <->
  exists pre rest, s = pre +:+ rest /\ Js.match_here re rest = true.
Proof.
  induction s as [|c s IH]; cbn.
  - rewrite orb_false_r. split.
    + intros H. by exists EmptyString, EmptyString.
    + intros (pre & rest & E & H).
      destruct pre; [|discriminate]. cbn in E. by subst rest.
  - rewrite orb_true_iff, IH. split.
    + intros [H | (pre & rest & -> & H)].
      * by exists EmptyString, (String c s).
      * by exists (String c pre), rest.
    + intros (pre & rest & E & H). destruct pre as [|c' pre]; cbn in E.
      * left. by subst rest.
      * right. injection E as -> ->. eauto.
Qed.

(** ['video/*'] as a pattern: the content type contains [video]. *)
Lemma fileType_matches_iff s :
  Js.search VideoController.fileType s = true <->
  exists pre post, s = pre +:+ "video" +:+ post.
Proof.
  rewrite search_iff. unfold VideoController.fileType.
  split.
  - intros (pre & rest & -> & H). exists pre.
    apply match_here_lit in H as (s1 & -> & H).
    apply match_here_lit in H as (s2 & -> & H).
    apply match_here_lit in H as (s3 & -> & H).
    apply match_here_lit in H as (s4 & -> & H).
    apply match_here_lit in H as (s5 & -> & H).
    by exists s5.
  - intros (pre & post & ->). exists pre, ("video" +:+ post). split; [done|].
    simpl.
    repeat (apply match_here_lit; eexists; split; [reflexivity|]).
    apply match_here_last_star.
Qed.

End JsFacts.

(** ** Running programs *)

Section ProgFacts.
Context {S : Sig} {W : Type} (h : Handler S W).

Lemma run_bind {A B} (p : Prog S A) (f : A -> Prog S B) w :
  run h (bind p f) w =
  let '(a, w1, t1) := run h p w in
  let '(b, w2, t2) := run h (f a) w1 in
  (b, w2, t1 ++ t2).
Proof.
  revert w. induction p as [a | c k IH]; intros w; cbn.
  - by destruct (run h (f a) w) as [[b w2] t2].
  - destruct (h c w) as [r w1]. rewrite IH.
    destruct (run h (k r) w1) as [[a w2] t1].
    by destruct (run h (f a) w2) as [[b w3] t2].
Qed.

(** An invariant of every call is an invariant of every run. *)
Lemma run_preserves {A} (I : W -> Prop) (p : Prog S A) :
  (forall c w, I w -> I (h c w).2) ->
  forall w, I w -> I (final h p w).
Proof.
  intros Hc. unfold final.
  induction p as [a | c k IH]; intros w Hw; cbn; [done|].
  specialize (Hc c w Hw). destruct (h c w) as [r w1]. cbn in Hc.
  specialize (IH r w1 Hc). by destruct (run h (k r) w1) as [[a w2] t].
Qed.

End ProgFacts.

(** ** The file gate of the upload route *)

Section GateFacts.
Import VideoController.

Lemma accepts_iff file :
  accepts file = true <->
  size file < maxSize /\ Js.search fileType (mimetype file) = true.
Proof.
  unfold accepts, FileInterceptor, validators, ParseFilePipe,
    MaxFileSizeValidator, FileTypeValidator, fileSize_limit, maxSize; cbn.
  destruct (Z.leb_spec (1024 * 1024 * 2000) (size file)),
    (Z.ltb_spec (size file) (1024 * 1024 * 2000)),
    (Js.search fileType (mimetype file)); split; try done; try lia;
    intros [? ?]; try done; lia.
Qed.

Lemma gate_throws file :
  accepts file = false ->
  exists x,
    (FileInterceptor file = Some x \/
     FileInterceptor file = None /\ ParseFilePipe validators file = Some x) /\
    (thrown_status x = HttpStatus.PAYLOAD_TOO_LARGE \/
     thrown_status x = HttpStatus.UNPROCESSABLE_ENTITY).
Proof.
  unfold accepts, FileInterceptor.
  destruct (fileSize_limit <=? size file).
  - intros _. exists PayloadTooLarge. split; [by left | by left].
  - unfold validators, ParseFilePipe.
    destruct (isValid (MaxFileSizeValidator maxSize) file).
    + destruct (isValid (FileTypeValidator fileType) file); [done|].
      intros _. eexists. split; [right; done | by right].
    + intros _. eexists. split; [right; done | by right].
Qed.

(** C1, as the claim words it, fails: a video of 2 100 000 000 bytes is
    under 2 GiB and of a video type, and the gate turns it away. *)
Lemma gate_rejects_under_2GiB :
  ~ (accepts (mkFile "procedure1.mp4" "video/mp4" 2100000000) = true <->
     spec_constraints (mkFile "procedure1.mp4" "video/mp4" 2100000000)).
Proof.
  intros [_ H].
  assert (Hs : spec_constraints (mkFile "procedure1.mp4" "video/mp4" 2100000000)).
  { split; [unfold two_GiB; simpl; lia | reflexivity]. }
  specialize (H Hs). vm_compute in H. discriminate.
Qed.

(** C1 (amended): the gate of the upload route lets a file through if and
    only if its size is under 1024 * 1024 * 2000 bytes and its content
    type matches the pattern [video/*], that is, contains [video]; any
    other file is turned away by a thrown 413 or 422 object, and the run
    then issues no call at all: the state is unchanged and the trace is
    empty. *)
Theorem upload_gate {W} (h : Handler sig W) file dto w :
  (accepts file = true <->
     size file < 1024 * 1024 * 2000 /\
     Js.search fileType (mimetype file) = true) /\
  (Js.search fileType (mimetype file) = true <->
     exists pre post, mimetype file = pre +:+ "video" +:+ post) /\
  (accepts file = false ->
     exists x,
       run h (upload_route file dto) w = (Threw x, w, []) /\
       (thrown_status x = 413 \/ thrown_status x = 422)).
Proof.
  split; [apply accepts_iff|]. split; [apply fileType_matches_iff|].
  intros Hrej. destruct (gate_throws file Hrej) as (x & Hx & Hs).
  exists x. split; [|exact Hs].
  unfold upload_route.
  destruct Hx as [-> | [-> ->]]; reflexivity.
Qed.

End GateFacts.

(** ** The handlers of the controller *)

Section ControllerFacts.
Import VideoController.
Context {W : Type} (h : Handler sig W).

(** Case analysis on what the next awaited call settles to. *)
Ltac settle :=
  match goal with
  | r : Settled _ |- _ => destruct r; cbn
  | r : option Video |- _ => destruct r; cbn
  | r : unit |- _ => destruct r; cbn
  | |- context [match Js.truthy_str ?x with _ => _ end] =>
      destruct (Js.truthy_str x); cbn
  | |- context [h ?c ?w] =>
      let r := fresh "r" in
      let w' := fresh "w" in
      destruct (h c w) as [r w']; cbn in r; cbn
  end.

Ltac run_handler :=
  unfold result, trace, calls, final; cbn; repeat settle.

(** C3: the signed-URL route.  When the lookup resolves to no record, or
    to a record without a storage key, the answer is 404 "not found" and
    the run holds no call to the Storage Gateway; otherwise the gateway is
    asked once, for the record's key, and the URL it resolves to comes
    back with status 200.  (A rejection of either call takes the [catch]
    branch.) *)
Theorem getSignedUrl_outcome (id : string) (w : W) :
  let r := result h (getSignedUrl id) w in
  let s3 := List.filter is_s3_call (calls h (getSignedUrl id) w) in
  match h (videoService_findOne id) w with
  | (Rejected e, _) =>
      r = caught e "Error al obtener la URL firmada" /\ s3 = []
  | (Resolved None, _) =>
      r = mkApiResponse 404 "Video no encontrado" None /\ s3 = []
  | (Resolved (Some video), w1) =>
      match Js.truthy_str (fileKey video) with
      | None => r = mkApiResponse 404 "Video no encontrado" None /\ s3 = []
      | Some key =>
          s3 = [s3Service_getSignedUrl key] /\
          match h (s3Service_getSignedUrl key) w1 with
          | (Resolved url, _) =>
              r = mkApiResponse 200 "URL firmada obtenida exitosamente"
                    (Some url)
          | (Rejected e, _) => r = caught e "Error al obtener la URL firmada"
          end
      end
  end.
Proof.
  unfold result, calls, trace; cbn.
  destruct (h (videoService_findOne id) w) as [[e | [video|]] w1]; cbn;
    [done | | done].
  destruct (Js.truthy_str (fileKey video)) as [key|]; cbn; [|done].
  destruct (h (s3Service_getSignedUrl key) w1) as [[e | url] w2]; cbn; done.
Qed.

(** C4: when the service reports a miss (it resolves to [null]), reading,
    updating and deleting each answer with status 200, no data and the
    message "Video no encontrado". *)
Theorem lookup_miss_is_success (id : string) (dto : UpdateVideoDto) (w : W) :
  (h (videoService_findOne id) w).1 = Resolved None ->
  (h (videoService_update id dto) w).1 = Resolved None ->
  (h (videoService_remove id) w).1 = Resolved None ->
  result h (findOne id) w = mkApiResponse 200 "Video no encontrado" None /\
  result h (update id dto) w = mkApiResponse 200 "Video no encontrado" None /\
  result h (remove id) w = mkApiResponse 200 "Video no encontrado" None.
Proof.
  unfold result; cbn.
  destruct (h (videoService_findOne id) w) as [r1 w1],
    (h (videoService_update id dto) w) as [r2 w2],
    (h (videoService_remove id) w) as [r3 w3]; cbn.
  intros -> -> ->. done.
Qed.

(** Every route returns the envelope of a [catch] block as soon as one of
    its calls rejects, and then no other call has rejected. *)
Lemma raised_caught (ep : endpoint) (w : W) (e : Js.Error) :
  In e (raised (trace h (handle ep) w)) ->
  exists fallback,
    result h (handle ep) w = envelope VideoData (caught e fallback).
Proof.
  destruct ep; run_handler; intros Hin;
    repeat (destruct Hin as [<- | Hin]); try done;
    eexists; reflexivity.
Qed.

(** C6: every route returns an envelope, whatever its calls settle to (a
    route is a program of type [Prog sig (ApiResponse Payload)]: it has no
    way to reject); and when a call of the run has rejected with [e], the
    status of the envelope is the classification code of [e] (its
    [statusCode], when that is a truthy number), or 500 when [e] carries
    none. *)
Theorem errors_become_envelopes (ep : endpoint) (w : W) (e : Js.Error) :
  In e (raised (trace h (handle ep) w)) ->
  let r := result h (handle ep) w in
  data r = None /\
  statusCode r = default HttpStatus.INTERNAL_SERVER_ERROR (Js.classification e) /\
  (forall c, Js.err_statusCode e = Some c -> c <> 0 -> statusCode r = c) /\
  (Js.err_statusCode e = None -> statusCode r = 500).
Proof.
  intros Hin. destruct (raised_caught ep w e Hin) as [fallback ->].
  cbn. unfold Js.or_num, Js.classification.
  repeat split.
  - destruct (Js.err_statusCode e) as [c|]; [|done]. by destruct (c =? 0).
  - intros c -> Hc. by apply Z.eqb_neq in Hc as ->.
  - by intros ->.
Qed.

(** C9: on every route, an envelope whose status is neither 200 nor 201
    has no data; put the other way round, data comes only with 200 or 201. *)
Theorem failure_has_no_data (ep : endpoint) (w : W) :
  let r := result h (handle ep) w in
  (statusCode r <> HttpStatus.OK -> statusCode r <> HttpStatus.CREATED ->
   data r = None) /\
  (is_Some (data r) ->
   statusCode r = HttpStatus.OK \/ statusCode r = HttpStatus.CREATED).
Proof.
  assert (Hall : data (result h (handle ep) w) = None \/
                 statusCode (result h (handle ep) w) = HttpStatus.OK \/
                 statusCode (result h (handle ep) w) = HttpStatus.CREATED).
  { destruct ep; run_handler; auto. }
  cbn. split.
  - intros H1 H2. destruct Hall as [? | [? | ?]]; done.
  - intros [x Hx]. destruct Hall as [Hn | ?]; [|done].
    rewrite Hn in Hx. discriminate.
Qed.

End ControllerFacts.

(** ** The upload workflow *)

Section WorkflowFacts.
Import VideoService.
Context {W : Type} (h : Handler sig W).

(** C2: in a run of the upload workflow in which [put] succeeded for [key]
    and [create] failed with [e], the object calls that delete are exactly
    one, the delete of [key], and the run settles to the rejection [e]:
    whatever the compensating delete itself settled to. *)
Theorem compensating_delete file dto (w : W) (key : string) (e : Js.Error) :
  In key (omap put_resolved (trace h (upload file dto) w)) ->
  In e (omap create_rejected (trace h (upload file dto) w)) ->
  List.filter is_storage_delete (calls h (upload file dto) w) =
    [storage_delete key] /\
  result h (upload file dto) w = Rejected e.
Proof.
  unfold result, calls, trace; cbn.
  destruct (h newIdentifier w) as [identifier w1]; cbn in identifier; cbn.
  destruct (h (storage_put _ _ _) w1) as [[e1 | []] w2]; cbn; [tauto|].
  destruct (h (store_create _) w2) as [[e2 | video] w3]; cbn.
  - destruct (h (storage_delete _) w3) as [[e3 | []] w4]; cbn.
    + destruct (h (log _) w4) as [[] w5]; cbn.
      intros [<- | []] [<- | []]. done.
    + intros [<- | []] [<- | []]. done.
  - intros _ [].
Qed.

(** The compensating delete can fail without a trace in the result. *)
Lemma failed_cleanup_is_dropped file dto (w : W) e e' :
  In e (omap create_rejected (trace h (upload file dto) w)) ->
  In e' (omap delete_rejected (trace h (upload file dto) w)) ->
  result h (upload file dto) w = Rejected e.
Proof.
  unfold result, calls, trace; cbn.
  destruct (h newIdentifier w) as [identifier w1]; cbn in identifier; cbn.
  destruct (h (storage_put _ _ _) w1) as [[e1 | []] w2]; cbn; [tauto|].
  destruct (h (store_create _) w2) as [[e2 | video] w3]; cbn; [|tauto].
  destruct (h (storage_delete _) w3) as [[e3 | []] w4]; cbn.
  - destruct (h (log _) w4) as [[] w5]; cbn. by intros [<- | []] _.
  - by intros [<- | []] _.
Qed.

End WorkflowFacts.

(** ** Storage keys *)

Section KeyFacts.
Import VideoService.

Lemma from_last_dot_dotted s e : from_last_dot s = Some e -> dotted e.
Proof.
  revert e. induction s as [|c s IH]; intros e; simpl; [done|].
  destruct (from_last_dot s) as [e'|].
  - intros [= <-]. by apply IH.
  - destruct (Ascii.eqb_spec c "."); [|done].
    intros [= <-]. right. subst c. eauto.
Qed.

Lemma extension_dotted name : dotted (extension name).
Proof.
  destruct name as [|c rest]; simpl; [by left|].
  destruct (from_last_dot rest) as [e|] eqn:E; simpl; [|by left].
  by eapply from_last_dot_dotted.
Qed.

Lemma identifier_head p :
  exists c rest, World.identifier p = String c rest /\ c <> "."%char.
Proof. destruct p; simpl; eauto. Qed.

Lemma identifier_not_dotted p e : ~ dotted (World.identifier p +:+ e).
Proof.
  destruct (identifier_head p) as (c & rest & -> & Hc). simpl.
  intros [? | [rest' [= ? _]]]; done.
Qed.

(** The identifier can be read back from the key. *)
Lemma identifier_key_inj p q e1 e2 :
  dotted e1 -> dotted e2 ->
  World.identifier p +:+ e1 = World.identifier q +:+ e2 -> p = q.
Proof.
  revert q e1 e2.
  induction p as [p IH | p IH |]; intros [q | q |] e1 e2 H1 H2; simpl;
    intros [= E]; try done.
  - f_equal. exact (IH q e1 e2 H1 H2 E).
  - exfalso. apply (identifier_not_dotted p e1). by rewrite E.
  - f_equal. exact (IH q e1 e2 H1 H2 E).
  - exfalso. apply (identifier_not_dotted q e2). by rewrite <- E.
Qed.

Lemma storage_key_inj p q n1 n2 :
  storage_key (World.identifier p) n1 = storage_key (World.identifier q) n2 ->
  p = q.
Proof. apply identifier_key_inj; apply extension_dotted. Qed.

Lemma storage_key_nonempty p name :
  storage_key (World.identifier p) name <> EmptyString.
Proof.
  unfold storage_key.
  destruct (identifier_head p) as (c & rest & -> & _). done.
Qed.

End KeyFacts.

(** ** The world of the workflows *)

Section WorldFacts.
Import World.

Lemma empty_accounted f : keys_accounted (empty f).
Proof. intros k []. Qed.

Lemma step_accounted w w' :
  key_step w w' -> keys_accounted w -> keys_accounted w'.
Proof.
  intros [Hn Hk] Hw k Hin. destruct Hk as [Hk | (name & Hlt & Hk)].
  - rewrite Hk in Hin. destruct (Hw k Hin) as (p & name & Hp & ->).
    exists p, name. split; [lia | done].
  - rewrite Hk in Hin. destruct Hin as [<- | Hin].
    + by exists (next w), name.
    + destruct (Hw k Hin) as (p & name' & Hp & ->).
      exists p, name'. split; [lia | done].
Qed.

Lemma accounted_fresh w name :
  keys_accounted w ->
  ~ In (VideoService.storage_key (identifier (next w)) name) (issued w).
Proof.
  intros Hw Hin. destruct (Hw _ Hin) as (p & name' & Hp & Heq).
  apply storage_key_inj in Heq. lia.
Qed.

Lemma step_distinct w w' :
  key_step w w' -> keys_accounted w -> List.NoDup (issued w) ->
  List.NoDup (issued w').
Proof.
  intros [Hn [-> | (name & Hlt & ->)]] Hw Hd; [done|].
  constructor; [by apply accounted_fresh | done].
Qed.

(** Case analysis on what the world answers. *)
Ltac world_case :=
  first
    [ progress (unfold create, remove_record)
    | match goal with
      | |- context [match put_fault ?f with _ => _ end] =>
          destruct (put_fault f) eqn:?
      | |- context [match store_fault ?f with _ => _ end] =>
          destruct (store_fault f) eqn:?
      | |- context [match delete_fault ?f with _ => _ end] =>
          destruct (delete_fault f) eqn:?
      | |- context [match signedUrl_fault ?f with _ => _ end] =>
          destruct (signedUrl_fault f) eqn:?
      | |- context [match ?m !! ?k with _ => _ end] =>
          destruct (m !! k) eqn:?
      | |- context [match fileKey ?v with _ => _ end] =>
          destruct (fileKey v) eqn:?
      end ];
  cbn.

(** A call of the controller puts at most one key, derived from the
    identifier that was next. *)
Lemma services_step c w : key_step w (services c w).2.
Proof.
  unfold services, VideoService.collaborators, key_step.
  destruct c; cbn; repeat world_case;
    (split; [lia|]); first [by left | right; eexists; split; [lia | done]].
Qed.

Lemma services_fresh c w : keys_fresh w -> keys_fresh (services c w).2.
Proof.
  intros [Hw Hd]. pose proof (services_step c w) as Hs. split.
  - by apply (step_accounted w).
  - by apply (step_distinct w).
Qed.

(** The keys put on the way to a reachable state are pairwise distinct,
    and each comes from an identifier already used. *)
Lemma reachable_fresh w : reachable w -> keys_fresh w.
Proof.
  induction 1 as [f | f w _ IH | w file dto _ IH | w ep _ IH].
  - split; [apply empty_accounted | constructor].
  - exact IH.
  - apply (run_preserves services keys_fresh); [|exact IH].
    apply services_fresh.
  - apply (run_preserves services keys_fresh); [|exact IH].
    apply services_fresh.
Qed.

Lemma reachable_accounted w : reachable w -> keys_accounted w.
Proof. intros H. apply reachable_fresh, H. Qed.

(** No storage key is used twice on the way to a reachable state. *)
Lemma reachable_keys_distinct w : reachable w -> List.NoDup (issued w).
Proof. intros H. apply reachable_fresh, H. Qed.

Lemma services_console l w :
  services (VideoController.console l) w = (tt, w).
Proof. reflexivity. Qed.

(** What a successful run of the upload workflow leaves behind. *)
Lemma upload_resolved file dto w v w' :
  services (VideoController.videoService_upload file dto) w = (Resolved v, w') ->
  let key := VideoService.storage_key (identifier (next w)) (originalname file) in
  title v = dto_title dto /\
  fileKey v = Some key /\
  records w' !! id v = Some v /\
  objects w' !! key = Some (size file).
Proof.
  unfold services, VideoService.collaborators. cbn.
  repeat world_case; intros [= <- <-]; cbn.
  repeat split; apply lookup_insert_eq.
Qed.

(** Under a gateway that lets objects be put and deleted, no object is
    left behind by an upload that fails: asking for a signed URL of its
    key reports [NotFound]. *)
Lemma no_orphan_after_failed_upload file dto w e ttl :
  put_fault (faults w) = None ->
  delete_fault (faults w) = None ->
  signedUrl_fault (faults w) = None ->
  result gateway (VideoService.upload file dto) w = Rejected e ->
  let w' := final gateway (VideoService.upload file dto) w in
  let key := VideoService.storage_key (identifier (next w)) (originalname file) in
  objects w' !! key = None /\
  (gateway (VideoService.storage_signedUrl key ttl) w').1 = Rejected NotFound.
Proof.
  intros Hput Hdel Hurl. unfold result, final. cbn.
  rewrite Hput. cbn. unfold create. cbn.
  destruct (store_fault (faults w)); cbn.
  - rewrite Hdel. cbn. rewrite Hurl, lookup_delete_eq. done.
  - destruct (by_key w !! _); cbn; [|done].
    rewrite Hdel. cbn. rewrite Hurl, lookup_delete_eq. done.
Qed.

End WorldFacts.

Section UploadFacts.
Import VideoController.

(** The method body of the upload route when the workflow resolves. *)
Lemma uploadVideo_resolved {W} (h : Handler sig W) file dto w w1 w2 w3 video :
  h (console (StartingUpload (originalname file) (size file))) w = (tt, w1) ->
  h (videoService_upload file dto) w1 = (Resolved video, w2) ->
  h (console (UploadCompleted (id video))) w2 = (tt, w3) ->
  (run h (uploadVideo file dto) w).1 =
    (mkApiResponse 201 "Video subido exitosamente" (Some video), w3).
Proof. intros H1 H2 H3. cbn. rewrite H1. cbn. rewrite H2. cbn. by rewrite H3. Qed.

Lemma upload_route_accepted file dto :
  accepts file = true ->
  upload_route file dto =
    bind (uploadVideo file dto) (fun r => Ret (Returned r)).
Proof.
  unfold accepts, upload_route.
  destruct (FileInterceptor file); [done|].
  by destruct (ParseFilePipe validators file).
Qed.

(** C5: from a state reached by requests, a valid upload whose workflow
    run resolves to the record [video] is answered with status 201 and
    that record as data; the record is in the store, it carries the title
    of the request, and its storage key is not empty and is none of the
    keys put by earlier uploads. *)
Theorem upload_creates_record (w : World.t) file dto video :
  World.reachable w ->
  accepts file = true ->
  (World.services (videoService_upload file dto) w).1 = Resolved video ->
  result World.services (upload_route file dto) w =
    Returned (mkApiResponse 201 "Video subido exitosamente" (Some video)) /\
  World.records (final World.services (upload_route file dto) w) !! id video =
    Some video /\
  title video = dto_title dto /\
  exists key,
    fileKey video = Some key /\ key <> EmptyString /\
    ~ In key (World.issued w).
Proof.
  intros Hreach Hacc Hup.
  destruct (World.services (videoService_upload file dto) w) as [r w'] eqn:E.
  cbn in Hup. subst r.
  pose proof (upload_resolved file dto w video w' E) as (Ht & Hk & Hr & _).
  assert (Hrun : (run World.services (uploadVideo file dto) w).1 =
            (mkApiResponse 201 "Video subido exitosamente" (Some video), w')).
  { by apply uploadVideo_resolved with (w1 := w) (w2 := w'). }
  unfold result, final. rewrite upload_route_accepted by done.
  rewrite run_bind.
  destruct (run World.services (uploadVideo file dto) w) as [[a wa] ta].
  cbn in Hrun. injection Hrun as -> ->. cbn.
  repeat split; try done.
  eexists. split; [exact Hk|]. split; [apply storage_key_nonempty|].
  intros Hin.
  destruct (reachable_accounted w Hreach _ Hin) as (p & name & Hp & Heq).
  apply storage_key_inj in Heq. lia.
Qed.

End UploadFacts.

(** ** The middleware of [bootstrap] *)

Section BootstrapFacts.
Import Bootstrap.

Lemma general_limiter_skips now req st res :
  is_upload req = true ->
  rateLimit general_limit general_store set_general now req st res =
    (st, res, Next).
Proof.
  unfold is_upload, rateLimit. cbn. by intros ->.
Qed.

(** The method of a request that the [cors] handler does not take for a
    preflight is not [OPTIONS]. *)
Lemma not_preflight_method req :
  String.eqb (Js.toUpperCase (method req)) "OPTIONS" = false ->
  String.eqb (method req) "OPTIONS" = false.
Proof.
  intros H. destruct (String.eqb_spec (method req) "OPTIONS") as [E|]; [|done].
  rewrite E in H. discriminate H.
Qed.

(** The [cors] handler of [bootstrap] ends a preflight and lets any other
    request through; it never arms a timeout. *)
Lemma cors_flow req res :
  (cors cors_options req res).2 =
    if String.eqb (Js.toUpperCase (method req)) "OPTIONS" then End else Next.
Proof. unfold cors. by destruct (String.eqb _ _). Qed.


(** A URL that only mentions the upload path in its query string is
    skipped by the general limiter and is not under the mount path of the
    upload limiter. *)
Example query_string_mention :
  let req := mkRequest "GET" "/api/v1/videos?from=/videos/upload"
               "203.0.113.7" ∅ in
  is_upload req = true /\ mount_matches upload_path req = false.
Proof. split; reflexivity. Qed.

End BootstrapFacts.

(** ** The statements at sample inputs *)

Section Witnesses.
Import Sample.

Lemma upload_gate_witness :
  VideoController.accepts oversized = false /\
  exists x,
    run World.services (VideoController.upload_route oversized iv_insertion)
      clean = (VideoController.Threw x, clean, []) /\
    (VideoController.thrown_status x = 413 \/
     VideoController.thrown_status x = 422).
Proof.
  split; [reflexivity|].
  apply (proj2 (proj2
           (upload_gate World.services oversized iv_insertion clean))).
  reflexivity.
Defined.

Lemma compensating_delete_witness :
  In "1.mp4"
    (omap VideoService.put_resolved
       (trace World.gateway (VideoService.upload procedure1 iv_insertion)
          broken)) /\
  In store_down
    (omap VideoService.create_rejected
       (trace World.gateway (VideoService.upload procedure1 iv_insertion)
          broken)) /\
  List.filter VideoService.is_storage_delete
    (calls World.gateway (VideoService.upload procedure1 iv_insertion) broken) =
    [VideoService.storage_delete "1.mp4"] /\
  result World.gateway (VideoService.upload procedure1 iv_insertion) broken =
    Rejected store_down.
Proof.
  assert (H1 : In "1.mp4"
    (omap VideoService.put_resolved
       (trace World.gateway (VideoService.upload procedure1 iv_insertion)
          broken))) by (left; reflexivity).
  assert (H2 : In store_down
    (omap VideoService.create_rejected
       (trace World.gateway (VideoService.upload procedure1 iv_insertion)
          broken))) by (left; reflexivity).
  split; [exact H1|]. split; [exact H2|].
  exact (compensating_delete World.gateway procedure1 iv_insertion broken
           "1.mp4" store_down H1 H2).
Defined.

Lemma lookup_miss_is_success_witness :
  (World.services (VideoController.videoService_findOne "0101") clean).1 =
    Resolved None /\
  (World.services
     (VideoController.videoService_update "0101" (mkUpdateVideoDto None None))
     clean).1 = Resolved None /\
  (World.services (VideoController.videoService_remove "0101") clean).1 =
    Resolved None /\
  result World.services (VideoController.findOne "0101") clean =
    mkApiResponse 200 "Video no encontrado" None /\
  result World.services
    (VideoController.update "0101" (mkUpdateVideoDto None None)) clean =
    mkApiResponse 200 "Video no encontrado" None /\
  result World.services (VideoController.remove "0101") clean =
    mkApiResponse 200 "Video no encontrado" None.
Proof.
  split; [reflexivity|]. split; [reflexivity|]. split; [reflexivity|].
  apply (lookup_miss_is_success World.services "0101"
           (mkUpdateVideoDto None None) clean); reflexivity.
Defined.

Lemma upload_creates_record_witness :
  World.reachable after_one_upload /\
  VideoController.accepts procedure1 = true /\
  (World.services
     (VideoController.videoService_upload procedure1 iv_insertion)
     after_one_upload).1 = Resolved second_video /\
  result World.services (VideoController.upload_route procedure1 iv_insertion)
    after_one_upload =
    VideoController.Returned
      (mkApiResponse 201 "Video subido exitosamente" (Some second_video)) /\
  World.records
    (final World.services
       (VideoController.upload_route procedure1 iv_insertion) after_one_upload)
    !! id second_video = Some second_video /\
  title second_video = dto_title iv_insertion /\
  exists key,
    fileKey second_video = Some key /\ key <> EmptyString /\
    ~ In key (World.issued after_one_upload).
Proof.
  assert (H1 : World.reachable after_one_upload).
  { apply World.reach_upload, World.reach_empty. }
  assert (H2 : VideoController.accepts procedure1 = true) by reflexivity.
  assert (H3 : (World.services
     (VideoController.videoService_upload procedure1 iv_insertion)
     after_one_upload).1 = Resolved second_video) by (vm_compute; reflexivity).
  split; [exact H1|]. split; [exact H2|]. split; [exact H3|].
  exact (upload_creates_record after_one_upload procedure1 iv_insertion
           second_video H1 H2 H3).
Defined.

Lemma errors_become_envelopes_witness :
  In store_down
    (VideoController.raised
       (trace World.services (VideoController.handle VideoController.GET_videos)
          broken)) /\
  data (result World.services
          (VideoController.handle VideoController.GET_videos) broken) = None /\
  statusCode (result World.services
          (VideoController.handle VideoController.GET_videos) broken) = 503.
Proof.
  assert (H : In store_down
    (VideoController.raised
       (trace World.services (VideoController.handle VideoController.GET_videos)
          broken))) by (left; reflexivity).
  split; [exact H|].
  destruct (errors_become_envelopes World.services VideoController.GET_videos
              broken store_down H) as (Hd & _ & Hc & _).
  split; [exact Hd|].
  apply Hc; [reflexivity | discriminate].
Defined.

Lemma failure_has_no_data_witness :
  statusCode (result World.services
          (VideoController.handle VideoController.GET_videos) broken) <> 200 /\
  statusCode (result World.services
          (VideoController.handle VideoController.GET_videos) broken) <> 201 /\
  data (result World.services
          (VideoController.handle VideoController.GET_videos) broken) = None.
Proof.
  assert (H1 : statusCode (result World.services
          (VideoController.handle VideoController.GET_videos) broken) <> 200)
    by (vm_compute; discriminate).
  assert (H2 : statusCode (result World.services
          (VideoController.handle VideoController.GET_videos) broken) <> 201)
    by (vm_compute; discriminate).
  split; [exact H1|]. split; [exact H2|].
  exact (proj1 (failure_has_no_data World.services VideoController.GET_videos
                  broken) H1 H2).
Defined.

End Witnesses.

(** ** More on the handlers of the controller *)

Section RouteFacts.
Import VideoController Routes.
Context {W : Type} (h : Handler sig W).

(** Case analysis on what the next awaited call settles to. *)
Ltac next_call :=
  match goal with
  | r : Settled _ |- _ => destruct r; cbn
  | r : option Video |- _ => destruct r; cbn
  | r : unit |- _ => destruct r; cbn
  | |- context [match Js.truthy_str ?x with _ => _ end] =>
      destruct (Js.truthy_str x); cbn
  | |- context [h ?c ?w] =>
      let r := fresh "r" in
      let w' := fresh "w" in
      destruct (h c w) as [r w']; cbn in r; cbn
  end.

Ltac run_route :=
  unfold calls, result, final, trace; cbn; repeat next_call.

Lemma or_num_nonzero x d : d <> 0 -> Js.or_num x d <> 0.
Proof.
  intros Hd. unfold Js.or_num. destruct x as [c|]; [|done].
  by destruct (Z.eqb_spec c 0).
Qed.

Lemma or_str_nonempty x d : d <> EmptyString -> Js.or_str x d <> EmptyString.
Proof. intros Hd. unfold Js.or_str. by destruct x as [[|a s]|]. Qed.


(** X2: only the upload route writes on the console: the start of the upload,
    then either its completion with the identifier of the record or the
    error that was caught.  The other routes log nothing, not even the
    errors they catch. *)
Theorem console_lines (ep : endpoint) (w : W) :
  List.filter is_console (calls h (handle ep) w) =
  match ep with
  | POST_upload file dto =>
      let start := console (StartingUpload (originalname file) (size file)) in
      [start;
       match (h (videoService_upload file dto) (h start w).2).1 with
       | Resolved video => console (UploadCompleted (id video))
       | Rejected e => console (VideoUploadError e)
       end]
  | _ => []
  end.
Proof. destruct ep; run_route; done. Qed.


(** X4: when the service finds the record, reading and updating answer 200
    with the record it resolved to, unchanged; deleting answers 200 with
    its own message and no data: the deleted record is not returned. *)
Theorem lookup_hit (id : string) (dto : UpdateVideoDto) (w : W)
    (found updated deleted : Video) :
  (h (videoService_findOne id) w).1 = Resolved (Some found) ->
  (h (videoService_update id dto) w).1 = Resolved (Some updated) ->
  (h (videoService_remove id) w).1 = Resolved (Some deleted) ->
  result h (findOne id) w =
    mkApiResponse 200 "Video obtenido exitosamente" (Some found) /\
  result h (update id dto) w =
    mkApiResponse 200 "Video actualizado exitosamente" (Some updated) /\
  result h (remove id) w =
    mkApiResponse 200 "Video eliminado exitosamente" None.
Proof.
  unfold result; cbn.
  destruct (h (videoService_findOne id) w) as [r1 w1],
    (h (videoService_update id dto) w) as [r2 w2],
    (h (videoService_remove id) w) as [r3 w3]; cbn.
  intros -> -> ->. done.
Qed.

(** X5: no envelope has status 0 or an empty message, whatever the
    collaborators resolve to or reject with: a falsy [statusCode] or
    [message] of an error is replaced. *)
Theorem envelope_well_formed (ep : endpoint) (w : W) :
  statusCode (result h (handle ep) w) <> 0 /\
  message (result h (handle ep) w) <> EmptyString.
Proof.
  destruct ep; run_route; split;
    first [ by apply or_num_nonzero | by apply or_str_nonempty | done ].
Qed.

(** X6: when a call of the run has rejected with [e], the message of the
    envelope is the message of [e], unless that is missing or empty: then
    it is the fixed message of the route. *)
Theorem caught_message (ep : endpoint) (w : W) (e : Js.Error) :
  In e (raised (trace h (handle ep) w)) ->
  let r := result h (handle ep) w in
  message r = Js.or_str (Js.err_message e) (fallback ep) /\
  (Js.truthy_str (Js.err_message e) = None -> message r = fallback ep) /\
  (forall m, Js.truthy_str (Js.err_message e) = Some m -> message r = m).
Proof.
  intros Hin.
  assert (Hm : message (result h (handle ep) w) =
               Js.or_str (Js.err_message e) (fallback ep)).
  { revert Hin. destruct ep; run_route; intros Hin;
      repeat (destruct Hin as [<- | Hin]); done. }
  cbn. rewrite Hm. split; [done|].
  unfold Js.or_str, Js.truthy_str.
  destruct (Js.err_message e) as [[|a s]|]; split; try done.
  by intros m [= <-].
Qed.

(** X7: the order of the checks in front of the upload handler: a file of
    1024 * 1024 * 2000 bytes or more is refused by the interceptor as too
    large (413), whatever its type; a smaller file of another type is
    refused by the type validator (422); a smaller file of a video type
    gets the envelope of the handler.  The size validator of the pipe,
    which has the same limit, therefore never refuses a file. *)
Theorem gate_verdict (file : File) (dto : CreateVideoDto) (w : W) :
  (if 1024 * 1024 * 2000 <=? size file
   then result h (upload_route file dto) w = Threw PayloadTooLarge
   else if Js.search fileType (mimetype file)
   then result h (upload_route file dto) w =
          Returned (result h (uploadVideo file dto) w)
   else result h (upload_route file dto) w =
          Threw (FileValidation 422 (ExpectedType fileType))) /\
  forall c m,
    result h (upload_route file dto) w <>
      Threw (FileValidation c (ExpectedSizeLessThan m)).
Proof.
  assert (Hb : result h
                 (bind (uploadVideo file dto) (fun r => Ret (Returned r))) w =
               Returned (result h (uploadVideo file dto) w)).
  { unfold result. rewrite run_bind.
    by destruct (run h (uploadVideo file dto) w) as [[a w1] t1]. }
  unfold upload_route, FileInterceptor, validators, ParseFilePipe,
    MaxFileSizeValidator, FileTypeValidator, fileSize_limit, maxSize,
    exceptionFactory. cbn [isValid buildErrorMessage].
  destruct (Z.leb_spec (1024 * 1024 * 2000) (size file)); [done|].
  destruct (Z.ltb_spec (size file) (1024 * 1024 * 2000)); [|lia].
  destruct (Js.search fileType (mimetype file)); [|done].
  rewrite Hb. done.
Qed.

(** X8: the upload route hands the file and the metadata of the request to
    the service as they came, once, when the file passes the gate, and
    makes no call to a collaborator otherwise. *)
Theorem upload_route_calls (file : File) (dto : CreateVideoDto) (w : W) :
  List.filter is_io_call (calls h (upload_route file dto) w) =
  if accepts file then [videoService_upload file dto] else [].
Proof.
  unfold accepts, upload_route.
  destruct (FileInterceptor file); [done|].
  destruct (ParseFilePipe validators file); [done|].
  run_route; done.
Qed.

End RouteFacts.

(** ** The whole stack *)

Section StackFacts.
Import Bootstrap Stack.

Lemma security_headers_lookup res :
  res_headers (security_headers res) !! "X-XSS-Protection" =
    Some "1; mode=block" /\
  res_headers (security_headers res) !! "X-Frame-Options" = Some "DENY" /\
  res_headers (security_headers res) !! "X-Content-Type-Options" =
    Some "nosniff" /\
  res_headers (security_headers res) !! "Strict-Transport-Security" =
    Some "max-age=31536000; includeSubDomains" /\
  res_headers (security_headers res) !! "Accept" = Some "multipart/form-data".
Proof. unfold security_headers, setHeader; cbn. by simplify_map_eq. Qed.

Lemma security_headers_rest res :
  status (security_headers res) = status res /\
  ended (security_headers res) = ended res /\
  req_timeout (security_headers res) = req_timeout res /\
  res_timeout (security_headers res) = res_timeout res.
Proof. done. Qed.

(** The stack for a request that the chain does not treat as an upload. *)
Lemma stack_ordinary L now req st r0 :
  cors L req fresh_response = (r0, Next) ->
  is_upload req = false ->
  mount_matches upload_path req = false ->
  let w := increment general_limit now (ip req) (general_store st) in
  let st' := set_general (<[ip req := w]> (general_store st)) st in
  stack L now req st =
    if 100 <? hits w
    then (st', status_end 429 (behind L req r0), End)
    else (st', security_headers (behind L req r0), Next).
Proof.
  intros Hc Hu Hm.
  unfold stack, middlewares, through, plain, mounted, passing, request_logger,
    rateLimit, upload_timeout, header_only.
  rewrite Hc, Hm. unfold is_upload in Hu.
  cbn -[increment Z.ltb]. rewrite Hu. cbn -[increment Z.ltb].
  match goal with |- context [if ?b then _ else _] => destruct b end;
    cbn -[increment]; done.
Qed.

(** The stack for a request under the mount path of the upload route that
    is not a preflight. *)
Lemma stack_upload L now req st r0 :
  cors L req fresh_response = (r0, Next) ->
  mount_matches upload_path req = true ->
  is_upload req = true ->
  method req <> "OPTIONS" ->
  let w := increment upload_limit now (ip req) (upload_store st) in
  let st' := set_upload (<[ip req := w]> (upload_store st)) st in
  stack L now req st =
    if 10 <? hits w
    then (st', status_end 429 (behind L req r0), End)
    else (st',
          security_headers
            (setHeader "Access-Control-Max-Age" "86400"
               (setTimeouts 600000 (behind L req r0))),
          Next).
Proof.
  intros Hc Hm Hu Ho.
  apply String.eqb_neq in Ho.
  unfold stack, middlewares, through, plain, mounted, passing, request_logger,
    rateLimit, upload_timeout, header_only, upload_cors.
  rewrite Hc, Hm, Ho. unfold is_upload in Hu.
  cbn -[increment Z.ltb]. rewrite Hu. cbn -[increment Z.ltb].
  match goal with |- context [if ?b then _ else _] => destruct b end;
    cbn -[increment]; done.
Qed.


(** A request that goes on to the router has been through the last five
    handlers, and through the timeout handler if it is an upload. *)
Lemma stack_next L now req st st' res' :
  stack L now req st = (st', res', Next) ->
  exists res0,
    res' = security_headers res0 /\
    (is_upload req = true ->
     req_timeout res0 = Some 600000 /\ res_timeout res0 = Some 600000).
Proof.
  unfold stack, middlewares, through, plain, mounted, passing, request_logger,
    rateLimit, upload_timeout, header_only, upload_cors, is_upload.
  destruct (cors L req fresh_response) as [r0 [|]]; cbn -[increment Z.ltb];
    [|done].
  repeat case_match; simplify_eq; cbn -[increment Z.ltb];
    intros [= <- <-]; eexists; (split; [reflexivity|]); done.
Qed.

Lemma increment_fresh cfg now key (store : gmap string Window) :
  store !! key = None ->
  increment cfg now key store = mkWindow 1 (now + windowMs cfg).
Proof. unfold increment. by intros ->. Qed.

Lemma increment_running cfg now key (store : gmap string Window) k R :
  store !! key = Some (mkWindow k R) -> now < R ->
  increment cfg now key store = mkWindow (k + 1) R.
Proof.
  unfold increment. intros -> Hlt. cbn.
  by destruct (Z.leb_spec R now); [lia|].
Qed.

(** Counting through a burst, for a request that one of the limiters
    counts at every arrival. *)
Lemma burst_counts L req cfg (get : Limits -> gmap string Window) :
  (forall now st,
     get (stack L now req st).1.1 =
       <[ip req := increment cfg now (ip req) (get st)]> (get st) /\
     ((stack L now req st).2 = End <->
      max cfg < hits (increment cfg now (ip req) (get st)))) ->
  forall ts st k R,
    get st !! ip req = Some (mkWindow k R) ->
    (forall t, In t ts -> t < R) ->
    get (burst L req ts st).1 !! ip req =
      Some (mkWindow (k + Z.of_nat (length ts)) R) /\
    forall i f, (burst L req ts st).2 !! i = Some f ->
      (f = End <-> max cfg < k + Z.of_nat i + 1).
Proof.
  intros Hstep ts. induction ts as [|t ts IH]; intros st k R Hk Hts.
  - cbn. split; [by rewrite Z.add_0_r | by intros i f].
  - cbn [burst]. destruct (Hstep t st) as [Hget Hend].
    destruct (stack L t req st) as [[st1 res1] f1]. cbn in Hget, Hend.
    rewrite (increment_running cfg t (ip req) (get st) k R) in Hget, Hend
      by (try done; apply Hts; by left).
    assert (Hk1 : get st1 !! ip req = Some (mkWindow (k + 1) R)).
    { rewrite Hget. apply lookup_insert_eq. }
    destruct (IH st1 (k + 1) R Hk1) as [Hfin Hfs].
    { intros t' Ht'. apply Hts. by right. }
    destruct (burst L req ts st1) as [st2 fs]. cbn in Hfin, Hfs. cbn.
    split.
    + rewrite Hfin. do 2 f_equal. lia.
    + intros [|i] f; cbn.
      * intros [= <-]. cbn in Hend. rewrite Hend. lia.
      * intros Hf. rewrite (Hfs i f Hf). lia.
Qed.

(** X9: whatever the libraries did to the response, a request that goes on to
    the router carries the five headers that [bootstrap] sets last, with
    the values of [bootstrap]; and if its URL contains [/videos/upload] its
    socket timeouts are ten minutes. *)
Theorem router_sees_security_headers L now req st st' res' :
  stack L now req st = (st', res', Next) ->
  res_headers res' !! "X-XSS-Protection" = Some "1; mode=block" /\
  res_headers res' !! "X-Frame-Options" = Some "DENY" /\
  res_headers res' !! "X-Content-Type-Options" = Some "nosniff" /\
  res_headers res' !! "Strict-Transport-Security" =
    Some "max-age=31536000; includeSubDomains" /\
  res_headers res' !! "Accept" = Some "multipart/form-data" /\
  (is_upload req = true ->
   req_timeout res' = Some 600000 /\ res_timeout res' = Some 600000).
Proof.
  intros Hs. destruct (stack_next L now req st st' res' Hs) as (res0 & -> & Ht).
  destruct (security_headers_lookup res0) as (H1 & H2 & H3 & H4 & H5).
  repeat (split; [assumption|]). exact Ht.
Qed.

(** X10: a request whose URL does not contain [/videos/upload] and whose
    path is not under the upload path in any case of the letters, once
    past the [cors] handler, is counted by the general limiter under its
    address and by it alone; it is refused, with status 429 and before the router,
    exactly when that makes more than 100 hits in the window. *)
Theorem general_quota L now req st r0 :
  cors L req fresh_response = (r0, Next) ->
  is_upload req = false ->
  mount_matches upload_path req = false ->
  let w := increment general_limit now (ip req) (general_store st) in
  let out := stack L now req st in
  general_store out.1.1 = <[ip req := w]> (general_store st) /\
  upload_store out.1.1 = upload_store st /\
  (out.2 = End <-> 100 < hits w) /\
  (out.2 = End -> status out.1.2 = 429 /\ ended out.1.2 = true).
Proof.
  intros Hc Hu Hm. cbn zeta.
  rewrite (stack_ordinary L now req st r0 Hc Hu Hm).
  destruct (Z.ltb_spec 100
              (hits (increment general_limit now (ip req) (general_store st))));
    cbn -[increment]; repeat split; try done; lia.
Qed.

(** X11: a request under the upload path whose URL contains
    [/videos/upload] as written (the path in lower case, for one) and
    that is not a preflight, once past the [cors] handler, is counted by the upload limiter under its address
    and by it alone; it is refused, with status 429 and before the router,
    exactly when that makes more than 10 hits in the window. *)
Theorem upload_quota L now req st r0 :
  cors L req fresh_response = (r0, Next) ->
  mount_matches upload_path req = true ->
  is_upload req = true ->
  method req <> "OPTIONS" ->
  let w := increment upload_limit now (ip req) (upload_store st) in
  let out := stack L now req st in
  upload_store out.1.1 = <[ip req := w]> (upload_store st) /\
  general_store out.1.1 = general_store st /\
  (out.2 = End <-> 10 < hits w) /\
  (out.2 = End -> status out.1.2 = 429 /\ ended out.1.2 = true).
Proof.
  intros Hc Hm Hu Ho. cbn zeta.
  rewrite (stack_upload L now req st r0 Hc Hm Hu Ho).
  destruct (Z.ltb_spec 10
              (hits (increment upload_limit now (ip req) (upload_store st))));
    cbn -[increment]; repeat split; try done; lia.
Qed.



Lemma upload_step L req r0 :
  cors L req fresh_response = (r0, Next) ->
  mount_matches upload_path req = true ->
  is_upload req = true ->
  method req <> "OPTIONS" ->
  forall now st,
    upload_store (stack L now req st).1.1 =
      <[ip req := increment upload_limit now (ip req) (upload_store st)]>
        (upload_store st) /\
    ((stack L now req st).2 = End <->
     max upload_limit <
       hits (increment upload_limit now (ip req) (upload_store st))).
Proof.
  intros Hc Hm Hu Ho now st.
  rewrite (stack_upload L now req st r0 Hc Hm Hu Ho).
  destruct (Z.ltb_spec 10
              (hits (increment upload_limit now (ip req) (upload_store st))));
    cbn -[increment]; repeat split; try done; lia.
Qed.

(** A burst from a client that a limiter has not seen yet: the first
    arrival opens a window, and of the arrivals within it the first [max]
    go on to the router and the others do not. *)
Lemma burst_fresh L req cfg (get : Limits -> gmap string Window) :
  (forall now st,
     get (stack L now req st).1.1 =
       <[ip req := increment cfg now (ip req) (get st)]> (get st) /\
     ((stack L now req st).2 = End <->
      max cfg < hits (increment cfg now (ip req) (get st)))) ->
  1 <= max cfg ->
  forall t0 ts st,
    get st !! ip req = None ->
    (forall t, In t ts -> t < t0 + windowMs cfg) ->
    forall i f, (burst L req (t0 :: ts) st).2 !! i = Some f ->
      (f = Next <-> Z.of_nat i < max cfg).
Proof.
  intros Hstep Hmax t0 ts st Hnone Hts. cbn [burst].
  destruct (Hstep t0 st) as [Hget Hend].
  destruct (stack L t0 req st) as [[st1 res1] f1]. cbn in Hget, Hend.
  rewrite (increment_fresh cfg t0 (ip req) (get st) Hnone) in Hget, Hend.
  assert (Hk1 : get st1 !! ip req = Some (mkWindow 1 (t0 + windowMs cfg))).
  { rewrite Hget. apply lookup_insert_eq. }
  destruct (burst_counts L req cfg get Hstep ts st1 1 _ Hk1 Hts) as [_ Hfs].
  destruct (burst L req ts st1) as [st2 fs]. cbn in Hfs. cbn.
  intros [|i] f; cbn.
  - intros [= <-]. cbn in Hend. destruct f1; split; try done; try lia.
    intros _. exfalso. assert (End = End) as HE by done.
    apply Hend in HE. lia.
  - intros Hf. specialize (Hfs i f Hf). destruct f; split; try done.
    + intros _. destruct (Z.lt_ge_cases (max cfg) (1 + Z.of_nat i + 1));
        [|lia]. assert (Next = End) as HE by (by apply Hfs). discriminate.
    + intros Hlt. exfalso. assert (End = End) as HE by done.
      apply Hfs in HE. lia.
Qed.


(** X14: of the uploads of one client (under the upload path, the URL
    containing [/videos/upload] as written), the first 10 that arrive within an hour
    of the first go on to the router, and every further one in that
    window is refused (the client being new to the upload limiter, and
    the [cors] handler letting the request through). *)
Theorem first_ten_uploads_pass L req r0 t0 ts st :
  cors L req fresh_response = (r0, Next) ->
  mount_matches upload_path req = true ->
  is_upload req = true ->
  method req <> "OPTIONS" ->
  upload_store st !! ip req = None ->
  (forall t, In t ts -> t < t0 + 60 * 60 * 1000) ->
  forall i f, (burst L req (t0 :: ts) st).2 !! i = Some f ->
    (f = Next <-> (i < 10)%nat).
Proof.
  intros Hc Hm Hu Ho Hnone Hts i f Hf.
  rewrite (burst_fresh L req upload_limit upload_store
             (upload_step L req r0 Hc Hm Hu Ho) ltac:(cbn; lia)
             t0 ts st Hnone Hts i f Hf).
  cbn. lia.
Qed.

(** X15: once the window of a client is over, its next upload opens a new
    window and goes on to the router, however many hits the old window
    held. *)
Theorem upload_window_over L now req st r0 k R :
  cors L req fresh_response = (r0, Next) ->
  mount_matches upload_path req = true ->
  is_upload req = true ->
  method req <> "OPTIONS" ->
  upload_store st !! ip req = Some (mkWindow k R) ->
  R <= now ->
  (stack L now req st).2 = Next /\
  upload_store (stack L now req st).1.1 !! ip req =
    Some (mkWindow 1 (now + 60 * 60 * 1000)).
Proof.
  intros Hc Hm Hu Ho Hk HR.
  rewrite (stack_upload L now req st r0 Hc Hm Hu Ho).
  assert (Hw : increment upload_limit now (ip req) (upload_store st) =
               mkWindow 1 (now + 60 * 60 * 1000)).
  { unfold increment. rewrite Hk. cbn.
    by destruct (Z.leb_spec R now); [|lia]. }
  rewrite Hw. cbn. split; [done|]. apply lookup_insert_eq.
Qed.

End StackFacts.

(** ** The further statements at sample inputs *)

Section MoreWitnesses.
Import Sample Cases.


Lemma lookup_hit_witness :
  (World.services (VideoController.videoService_findOne "01")
     after_one_upload).1 = Resolved (Some first_video) /\
  (World.services (VideoController.videoService_update "01" retitle)
     after_one_upload).1 = Resolved (Some retitled_video) /\
  (World.services (VideoController.videoService_remove "01")
     after_one_upload).1 = Resolved (Some first_video) /\
  result World.services (VideoController.findOne "01") after_one_upload =
    mkApiResponse 200 "Video obtenido exitosamente" (Some first_video) /\
  result World.services (VideoController.update "01" retitle)
    after_one_upload =
    mkApiResponse 200 "Video actualizado exitosamente" (Some retitled_video) /\
  result World.services (VideoController.remove "01") after_one_upload =
    mkApiResponse 200 "Video eliminado exitosamente" None.
Proof.
  assert (H1 : (World.services (VideoController.videoService_findOne "01")
     after_one_upload).1 = Resolved (Some first_video))
    by (vm_compute; reflexivity).
  assert (H2 : (World.services (VideoController.videoService_update "01" retitle)
     after_one_upload).1 = Resolved (Some retitled_video))
    by (vm_compute; reflexivity).
  assert (H3 : (World.services (VideoController.videoService_remove "01")
     after_one_upload).1 = Resolved (Some first_video))
    by (vm_compute; reflexivity).
  split; [exact H1|]. split; [exact H2|]. split; [exact H3|].
  exact (lookup_hit World.services "01" retitle after_one_upload
           first_video retitled_video first_video H1 H2 H3).
Defined.

Lemma caught_message_witness :
  In store_down
    (VideoController.raised
       (trace World.services (VideoController.handle VideoController.GET_videos)
          broken)) /\
  message (result World.services
             (VideoController.handle VideoController.GET_videos) broken) =
    "store unavailable".
Proof.
  assert (H : In store_down
    (VideoController.raised
       (trace World.services (VideoController.handle VideoController.GET_videos)
          broken))) by (left; reflexivity).
  split; [exact H|].
  destruct (caught_message World.services VideoController.GET_videos
              broken store_down H) as (_ & _ & Hm).
  apply Hm. reflexivity.
Defined.

Lemma router_sees_security_headers_witness :
  Stack.stack Stack.with_helmet 0 list_get no_limits =
    ((Stack.stack Stack.with_helmet 0 list_get no_limits).1.1,
     (Stack.stack Stack.with_helmet 0 list_get no_limits).1.2,
     Bootstrap.Next) /\
  Bootstrap.res_headers (Stack.stack Stack.with_helmet 0 list_get no_limits).1.2
    !! "X-Frame-Options" = Some "DENY" /\
  Bootstrap.res_headers (Stack.stack Stack.with_helmet 0 list_get no_limits).1.2
    !! "X-XSS-Protection" = Some "1; mode=block".
Proof.
  assert (H : Stack.stack Stack.with_helmet 0 list_get no_limits =
    ((Stack.stack Stack.with_helmet 0 list_get no_limits).1.1,
     (Stack.stack Stack.with_helmet 0 list_get no_limits).1.2,
     Bootstrap.Next)) by reflexivity.
  split; [exact H|].
  destruct (router_sees_security_headers Stack.with_helmet 0 list_get
              no_limits _ _ H) as (Hx & Hf & _).
  split; [exact Hf | exact Hx].
Defined.


Lemma general_quota_witness :
  Stack.cors Stack.quiet list_get Bootstrap.fresh_response =
    (Bootstrap.fresh_response, Bootstrap.Next) /\
  Bootstrap.is_upload list_get = false /\
  Bootstrap.mount_matches Bootstrap.upload_path list_get = false /\
  Bootstrap.upload_store (Stack.stack Stack.quiet 0 list_get no_limits).1.1 =
    Bootstrap.upload_store no_limits.
Proof.
  assert (H1 : Stack.cors Stack.quiet list_get Bootstrap.fresh_response =
    (Bootstrap.fresh_response, Bootstrap.Next)) by reflexivity.
  assert (H2 : Bootstrap.is_upload list_get = false) by reflexivity.
  assert (H3 : Bootstrap.mount_matches Bootstrap.upload_path list_get = false)
    by reflexivity.
  split; [exact H1|]. split; [exact H2|]. split; [exact H3|].
  destruct (general_quota Stack.quiet 0 list_get no_limits _ H1 H2 H3)
    as (_ & Hu & _).
  exact Hu.
Defined.

Lemma upload_quota_witness :
  Stack.cors Stack.quiet upload_post Bootstrap.fresh_response =
    (Bootstrap.fresh_response, Bootstrap.Next) /\
  Bootstrap.mount_matches Bootstrap.upload_path upload_post = true /\
  Bootstrap.is_upload upload_post = true /\
  Bootstrap.method upload_post <> "OPTIONS" /\
  (Stack.stack Stack.quiet 5 upload_post spent).2 = Bootstrap.End /\
  Bootstrap.status (Stack.stack Stack.quiet 5 upload_post spent).1.2 = 429.
Proof.
  assert (H1 : Stack.cors Stack.quiet upload_post Bootstrap.fresh_response =
    (Bootstrap.fresh_response, Bootstrap.Next)) by reflexivity.
  assert (H2 : Bootstrap.mount_matches Bootstrap.upload_path upload_post = true)
    by reflexivity.
  assert (Hu : Bootstrap.is_upload upload_post = true) by reflexivity.
  assert (H3 : Bootstrap.method upload_post <> "OPTIONS") by discriminate.
  split; [exact H1|]. split; [exact H2|]. split; [exact Hu|]. split; [exact H3|].
  destruct (upload_quota Stack.quiet 5 upload_post spent _ H1 H2 Hu H3)
    as (_ & _ & He & Hs).
  assert (HE : (Stack.stack Stack.quiet 5 upload_post spent).2 = Bootstrap.End).
  { apply He. vm_compute. reflexivity. }
  split; [exact HE|]. exact (proj1 (Hs HE)).
Defined.


Lemma first_ten_uploads_pass_witness :
  Stack.cors Stack.quiet upload_post Bootstrap.fresh_response =
    (Bootstrap.fresh_response, Bootstrap.Next) /\
  Bootstrap.mount_matches Bootstrap.upload_path upload_post = true /\
  Bootstrap.is_upload upload_post = true /\
  Bootstrap.method upload_post <> "OPTIONS" /\
  Bootstrap.upload_store no_limits !! Bootstrap.ip upload_post = None /\
  (forall t, In t [10; 20] -> t < 0 + 60 * 60 * 1000) /\
  (Stack.burst Stack.quiet upload_post [0; 10; 20] no_limits).2 !! 2%nat =
    Some Bootstrap.Next.
Proof.
  assert (H1 : Stack.cors Stack.quiet upload_post Bootstrap.fresh_response =
    (Bootstrap.fresh_response, Bootstrap.Next)) by reflexivity.
  assert (H2 : Bootstrap.mount_matches Bootstrap.upload_path upload_post = true)
    by reflexivity.
  assert (Hu : Bootstrap.is_upload upload_post = true) by reflexivity.
  assert (H3 : Bootstrap.method upload_post <> "OPTIONS") by discriminate.
  assert (H4 : Bootstrap.upload_store no_limits !! Bootstrap.ip upload_post = None)
    by reflexivity.
  assert (H5 : forall t, In t [10; 20] -> t < 0 + 60 * 60 * 1000).
  { intros t [<- | [<- | []]]; lia. }
  split; [exact H1|]. split; [exact H2|]. split; [exact Hu|].
  split; [exact H3|]. split; [exact H4|]. split; [exact H5|].
  destruct ((Stack.burst Stack.quiet upload_post [0; 10; 20] no_limits).2
              !! 2%nat) as [f|] eqn:E; [|discriminate E].
  f_equal.
  apply (first_ten_uploads_pass Stack.quiet upload_post _ 0 [10; 20] no_limits
           H1 H2 Hu H3 H4 H5 2%nat f E).
  lia.
Defined.

Lemma upload_window_over_witness :
  Stack.cors Stack.quiet upload_post Bootstrap.fresh_response =
    (Bootstrap.fresh_response, Bootstrap.Next) /\
  Bootstrap.mount_matches Bootstrap.upload_path upload_post = true /\
  Bootstrap.is_upload upload_post = true /\
  Bootstrap.method upload_post <> "OPTIONS" /\
  Bootstrap.upload_store spent !! Bootstrap.ip upload_post =
    Some (Bootstrap.mkWindow 10 3600000) /\
  3600000 <= 3600000 /\
  (Stack.stack Stack.quiet 3600000 upload_post spent).2 = Bootstrap.Next.
Proof.
  assert (H1 : Stack.cors Stack.quiet upload_post Bootstrap.fresh_response =
    (Bootstrap.fresh_response, Bootstrap.Next)) by reflexivity.
  assert (H2 : Bootstrap.mount_matches Bootstrap.upload_path upload_post = true)
    by reflexivity.
  assert (Hu : Bootstrap.is_upload upload_post = true) by reflexivity.
  assert (H3 : Bootstrap.method upload_post <> "OPTIONS") by discriminate.
  assert (H4 : Bootstrap.upload_store spent !! Bootstrap.ip upload_post =
    Some (Bootstrap.mkWindow 10 3600000)) by reflexivity.
  assert (H5 : 3600000 <= 3600000) by lia.
  split; [exact H1|]. split; [exact H2|]. split; [exact Hu|].
  split; [exact H3|]. split; [exact H4|]. split; [exact H5|].
  exact (proj1 (upload_window_over Stack.quiet 3600000 upload_post spent
                  _ 10 3600000 H1 H2 Hu H3 H4 H5)).
Defined.

End MoreWitnesses.

(** ** The stack as [bootstrap] installs it *)

Section InstalledFacts.
Import Bootstrap Stack.
Context (h c : Request -> Response -> Response).


(** Any other request is let through by it. *)
Lemma installed_cors_pass req :
  Js.toUpperCase (method req) <> "OPTIONS" ->
  Stack.cors (installed h c) req fresh_response =
    ((Bootstrap.cors cors_options req fresh_response).1, Next).
Proof.
  intros Ho. apply String.eqb_neq in Ho. cbn [installed Stack.cors].
  pose proof (cors_flow req fresh_response) as Hf. rewrite Ho in Hf.
  destruct (Bootstrap.cors cors_options req fresh_response) as [r0 f].
  cbn in Hf. by subst f.
Qed.

Lemma not_preflight req :
  Js.toUpperCase (method req) <> "OPTIONS" -> method req <> "OPTIONS".
Proof. intros Ho E. apply Ho. by rewrite E. Qed.

(** The stack for a request under the upload path, in some other case of
    the letters, whose URL does not contain [/videos/upload] as written:
    both limiters take it. *)
Lemma stack_variant now req st r0 :
  Stack.cors (installed h c) req fresh_response = (r0, Next) ->
  mount_matches upload_path req = true ->
  is_upload req = false ->
  method req <> "OPTIONS" ->
  let g := increment general_limit now (ip req) (general_store st) in
  let u := increment upload_limit now (ip req) (upload_store st) in
  let st1 := set_general (<[ip req := g]> (general_store st)) st in
  let st2 := set_upload (<[ip req := u]> (upload_store st)) st1 in
  stack (installed h c) now req st =
    if 100 <? hits g
    then (st1, status_end 429 (behind (installed h c) req r0), End)
    else if 10 <? hits u
    then (st2, status_end 429 (behind (installed h c) req r0), End)
    else (st2, security_headers (behind (installed h c) req r0), Next).
Proof.
  intros Hc Hm Hu Ho. apply String.eqb_neq in Ho.
  unfold stack, middlewares, through, plain, mounted, passing, request_logger,
    rateLimit, upload_timeout, header_only, upload_cors.
  rewrite Hc, Hm, Ho. unfold is_upload in Hu.
  cbn -[increment Z.ltb installed]. rewrite Hu. cbn -[increment Z.ltb installed].
  destruct (100 <? hits (increment general_limit now (ip req) (general_store st)));
    cbn -[increment Z.ltb installed]; [done|].
  destruct (10 <? hits (increment upload_limit now (ip req) (upload_store st)));
    cbn -[increment installed]; [done|].
  rewrite ?Hu. done.
Qed.


End InstalledFacts.

(** ** Deadlines, limits and preflights in the installed stack *)

Section InstalledClaims.
Import Bootstrap Stack.



(** C8: the code departs from the claim for an upload whose path is
    written in another case of the letters.  Express mounts the upload
    limiter on it, but its URL does not contain [/videos/upload] as
    written, so the general limiter does not skip it: the request is
    counted against the general limiter, which can refuse it, and against
    the upload limiter as well when the general one lets it through. *)
Theorem case_variant_upload_counts_twice
    (h c : Request -> Response -> Response) now req st :
  mount_matches upload_path req = true ->
  is_upload req = false ->
  Js.toUpperCase (method req) <> "OPTIONS" ->
  let g := increment general_limit now (ip req) (general_store st) in
  let u := increment upload_limit now (ip req) (upload_store st) in
  let out := stack (installed h c) now req st in
  general_store out.1.1 = <[ip req := g]> (general_store st) /\
  (100 < hits g -> out.2 = End /\ status out.1.2 = 429) /\
  (hits g <= 100 ->
   upload_store out.1.1 = <[ip req := u]> (upload_store st) /\
   (out.2 = End <-> 10 < hits u)).
Proof.
  intros Hm Hu Ho. cbn zeta.
  rewrite (stack_variant h c now req st _
             (installed_cors_pass h c req Ho) Hm Hu (not_preflight req Ho)).
  destruct (Z.ltb_spec 100
              (hits (increment general_limit now (ip req) (general_store st))));
    [cbn -[increment]; repeat split; try done; lia|].
  destruct (Z.ltb_spec 10
              (hits (increment upload_limit now (ip req) (upload_store st))));
    cbn -[increment]; repeat split; try done; lia.
Qed.



End InstalledClaims.

Section InstalledWitnesses.
Import Sample Cases.


Lemma case_variant_upload_counts_twice_witness :
  Bootstrap.mount_matches Bootstrap.upload_path capitals = true /\
  Bootstrap.is_upload capitals = false /\
  Js.toUpperCase (Bootstrap.method capitals) <> "OPTIONS" /\
  Bootstrap.general_store
    (Stack.stack (Stack.installed same same) 0 capitals no_limits).1.1 =
    <[Bootstrap.ip capitals :=
        Bootstrap.increment Bootstrap.general_limit 0 (Bootstrap.ip capitals)
          (Bootstrap.general_store no_limits)]>
      (Bootstrap.general_store no_limits) /\
  Bootstrap.upload_store
    (Stack.stack (Stack.installed same same) 0 capitals no_limits).1.1 =
    <[Bootstrap.ip capitals :=
        Bootstrap.increment Bootstrap.upload_limit 0 (Bootstrap.ip capitals)
          (Bootstrap.upload_store no_limits)]>
      (Bootstrap.upload_store no_limits).
Proof.
  assert (H1 : Bootstrap.mount_matches Bootstrap.upload_path capitals = true)
    by reflexivity.
  assert (H2 : Bootstrap.is_upload capitals = false) by reflexivity.
  assert (H3 : Js.toUpperCase (Bootstrap.method capitals) <> "OPTIONS")
    by discriminate.
  split; [exact H1|]. split; [exact H2|]. split; [exact H3|].
  destruct (case_variant_upload_counts_twice same same 0 capitals no_limits
              H1 H2 H3) as (Hg & _ & Hu).
  split; [exact Hg|].
  apply Hu. vm_compute. discriminate.
Defined.


End InstalledWitnesses.
